(** * Session server actions: reservation sweep and availability check

    A model of the two server actions [cleanupExpiredReservations] and
    [isSessionAvailable].  Both run against the [Session] collection of a
    document database: the collection is a list of records, a query filter
    is a small term evaluated on a record, and the database calls live in a
    state-and-exception monad so that [try]/[catch] can be written as in the
    source.  The instant read by [new Date()] is an argument of each
    operation; the lines written to the console are left out. *)

From Stdlib Require Import String Ascii List ZArith Bool Lia PeanoNat.
From Stdlib Require Import OrderedTypeEx.
From Stdlib Require Import Permutation.
Import ListNotations.

Set Warnings "-register-all".

Local Open Scope string_scope.
Local Open Scope list_scope.

(** ** Time-of-day strings and their order

    [startTime] and [endTime] are strings and the query operators [$lt],
    [$lte], [$gt], [$gte] compare them as strings, byte by byte. *)

Module Time.

Definition ltb (a b : string) : bool := String.ltb a b.
Definition leb (a b : string) : bool := String.leb a b.

Definition lt (a b : string) : Prop := ltb a b = true.
Definition le (a b : string) : Prop := leb a b = true.

Definition max (a b : string) : string := if leb a b then b else a.

End Time.

(** ** Session records *)

(** A date value ([Date]), as milliseconds since the epoch. *)
Definition Date := Z.

(** Modelled from the spec: the enumeration [SessionStatus] of
    [@/types/session], which is not among the sources.  The spec's data model
    names the statuses reserved and confirmed; a record stores its status as
    a string. *)
Module SessionStatus.
Definition RESERVED : string := "reserved".
Definition CONFIRMED : string := "confirmed".
End SessionStatus.

(** Modelled from the spec: the schema of [@/models/Session], which is not
    among the sources.  A session is a booking between a mentee and a mentor
    with a date, a start and an end time, a status and, when reserved, an
    expiry timestamp; the fields are those the two operations read, and the
    date is kept as the string the query compares it with. *)
Record Session : Type := mkSession {
  _id : string;
  menteeId : string;
  mentorId : string;
  date : string;
  startTime : string;
  endTime : string;
  status : string;
  reservationExpires : option Date
}.

(** ** Query filters *)

Inductive Path : Type :=
| P_id | P_mentorId | P_date | P_startTime | P_endTime | P_status.

Definition field (p : Path) (s : Session) : string :=
  match p with
  | P_id => _id s
  | P_mentorId => mentorId s
  | P_date => date s
  | P_startTime => startTime s
  | P_endTime => endTime s
  | P_status => status s
  end.

Inductive Cmp : Type := LT | LTE | GT | GTE.

Inductive Filter : Type :=
| FieldEq (p : Path) (v : string)             (* { p: v } *)
| FieldCmp (p : Path) (op : Cmp) (v : string) (* { p: { $op: v } } *)
| FieldIn (p : Path) (vs : list string)       (* { p: { $in: vs } } *)
| ExpiresCmp (op : Cmp) (d : Date)            (* { reservationExpires: { $op: d } } *)
| All (qs : list Filter)                      (* { $and: qs }, and the keys of one object *)
| Any (qs : list Filter).                     (* { $or: qs } *)

Definition cmp_string (op : Cmp) (x v : string) : bool :=
  match op with
  | LT => Time.ltb x v
  | LTE => Time.leb x v
  | GT => Time.ltb v x
  | GTE => Time.leb v x
  end.

Definition cmp_date (op : Cmp) (x v : Date) : bool :=
  match op with
  | LT => (x <? v)%Z
  | LTE => (x <=? v)%Z
  | GT => (v <? x)%Z
  | GTE => (v <=? x)%Z
  end.

Definition mem (v : string) (vs : list string) : bool :=
  existsb (String.eqb v) vs.

(** A comparison on a field that the record does not have matches nothing. *)
Fixpoint matches (q : Filter) (s : Session) {struct q} : bool :=
  match q with
  | FieldEq p v => String.eqb (field p s) v
  | FieldCmp p op v => cmp_string op (field p s) v
  | FieldIn p vs => mem (field p s) vs
  | ExpiresCmp op d =>
      match reservationExpires s with
      | Some x => cmp_date op x d
      | None => false
      end
  | All qs => forallb (fun q' => matches q' s) qs
  | Any qs => existsb (fun q' => matches q' s) qs
  end.

(** ** The store and the monad of database calls *)

(** A thrown value. *)
Inductive Error : Type := MkError (message : string).

Inductive Call : Type :=
| CallConnect
| CallFind (q : Filter)
| CallDeleteMany (q : Filter).

(** The collection, the outcome scheduled for each coming database call
    ([Some e]: the call throws [e]; [None], or nothing scheduled: the call
    returns), and the calls made so far. *)
Record Store : Type := mkStore {
  sessions : list Session;
  faults : list (option Error);
  journal : list Call
}.

Inductive Outcome (A : Type) : Type :=
| Returned (a : A)
| Thrown (e : Error).
Arguments Returned {A} a.
Arguments Thrown {A} e.

Definition M (A : Type) : Type := Store -> Outcome A * Store.

Definition ret {A} (a : A) : M A := fun w => (Returned a, w).

Definition bind {A B} (m : M A) (k : A -> M B) : M B :=
  fun w =>
    match m w with
    | (Returned a, w') => k a w'
    | (Thrown e, w') => (Thrown e, w')
    end.

Definition throw {A} (e : Error) : M A := fun w => (Thrown e, w).

Definition try_catch {A} (body : M A) (handler : Error -> M A) : M A :=
  fun w =>
    match body w with
    | (Returned a, w') => (Returned a, w')
    | (Thrown e, w') => handler e w'
    end.

Notation "x <- m ;; k" := (bind m (fun x => k))
  (at level 61, m at next level, right associativity).
Notation "m ;;; k" := (bind m (fun _ => k))
  (at level 61, right associativity).

(** One database call: it is entered in the journal and takes the outcome
    scheduled for it.  A call that throws leaves the collection as it was. *)
Definition call (c : Call) : M unit :=
  fun w =>
    let j := journal w ++ [c] in
    match faults w with
    | Some e :: rest => (Thrown e, mkStore (sessions w) rest j)
    | None :: rest => (Returned tt, mkStore (sessions w) rest j)
    | [] => (Returned tt, mkStore (sessions w) [] j)
    end.

Definition connectDB : M unit := call CallConnect.

(** [Session.find(q)], also with [.lean()]: the matching records, in the
    order of the collection. *)
Definition Session_find (q : Filter) : M (list Session) :=
  call (CallFind q) ;;;
  fun w => (Returned (filter (matches q) (sessions w)), w).

(** [Session.deleteMany(q)]: removes the matching records and returns how
    many there were ([deletedCount]). *)
Definition Session_deleteMany (q : Filter) : M nat :=
  call (CallDeleteMany q) ;;;
  fun w =>
    (Returned (length (filter (matches q) (sessions w))),
     mkStore (filter (fun s => negb (matches q s)) (sessions w))
             (faults w) (journal w)).

(** ** cleanupExpiredReservations *)

Inductive CleanupResult : Type :=
| CleanupDone (deletedCount totalProcessed : nat) (* { success: true, deletedCount, totalProcessed } *)
| CleanupFailed (error : Error).                  (* { success: false, error } *)

Definition success (r : CleanupResult) : bool :=
  match r with
  | CleanupDone _ _ => true
  | CleanupFailed _ => false
  end.

Definition expiredQuery (now : Date) : Filter :=
  All [ ExpiresCmp LT now;
        FieldEq P_status SessionStatus.RESERVED ].

Definition cleanupExpiredReservations_try (now : Date) : M CleanupResult :=
  connectDB ;;;
  sessionsToCleanup <- Session_find (expiredQuery now) ;;
  if (0 <? length sessionsToCleanup)%nat then
    deletedCount <- Session_deleteMany
                      (FieldIn P_id (map _id sessionsToCleanup)) ;;
    ret (CleanupDone deletedCount (length sessionsToCleanup))
  else
    ret (CleanupDone 0 0).

(** [now] is the instant read by [new Date()]; [deletedCount] is a number,
    on which [|| 0] changes nothing. *)
Definition cleanupExpiredReservations (now : Date) : M CleanupResult :=
  try_catch (cleanupExpiredReservations_try now)
            (fun error => ret (CleanupFailed error)).

(** ** isSessionAvailable *)

Inductive Availability : Type :=
| Available                                   (* { available: true } *)
| AvailableForUser (reservationExpires : option Date)
                                              (* { available: true, reservedForCurrentUser: true, reservationExpires } *)
| Unavailable (reason : string)               (* { available: false, reason } *)
| UnavailableReserved (reason : string) (expiresAt : option Date).
                                              (* { available: false, reason, expiresAt } *)

Definition available (r : Availability) : bool :=
  match r with
  | Available | AvailableForUser _ => true
  | Unavailable _ | UnavailableReserved _ _ => false
  end.

Definition reason (r : Availability) : option string :=
  match r with
  | Unavailable m | UnavailableReserved m _ => Some m
  | Available | AvailableForUser _ => None
  end.

Definition expiresAt (r : Availability) : option Date :=
  match r with
  | UnavailableReserved _ d => d
  | _ => None
  end.


(** [s.split(sep)] for a separator of one character. *)
Fixpoint split (sep : ascii) (s : string) : list string :=
  match s with
  | EmptyString => [EmptyString]
  | String c rest =>
      if Ascii.eqb c sep then EmptyString :: split sep rest
      else match split sep rest with
           | p :: ps => String c p :: ps
           | [] => [String c EmptyString]
           end
  end.

(** A string that may be [undefined] is truthy when it is there and not
    empty. *)
Definition truthy (x : option string) : bool :=
  match x with
  | Some v => negb (String.eqb v "")
  | None => false
  end.

Definition str (x : option string) : string :=
  match x with
  | Some v => v
  | None => ""
  end.

(** The first member of the outer [$and]: the three ways in which an
    existing session is taken to overlap the slot. *)
Definition overlapQuery (startTime endTime : string) : Filter :=
  Any [ All [ FieldCmp P_startTime LTE startTime;
              FieldCmp P_endTime GT startTime ];
        All [ FieldCmp P_startTime LT endTime;
              FieldCmp P_endTime GTE endTime ];
        All [ FieldCmp P_startTime GTE startTime;
              FieldCmp P_endTime LTE endTime ] ].

(** The second member: confirmed, or reserved and not yet expired. *)
Definition liveQuery (now : Date) : Filter :=
  Any [ FieldEq P_status SessionStatus.CONFIRMED;
        All [ FieldEq P_status SessionStatus.RESERVED;
              ExpiresCmp GT now ] ].

Definition conflictQuery (mentorId dateStr startTime endTime : string)
           (now : Date) : Filter :=
  All [ FieldEq P_mentorId mentorId;
        FieldEq P_date dateStr;
        All [ overlapQuery startTime endTime;
              liveQuery now ] ].

Definition isSessionAvailable_try (now : Date) (slotInfo : string)
           (userId : option string) : M Availability :=
  connectDB ;;;
  let parts := split "_" slotInfo in
  let mentorId := nth_error parts 0 in
  let dateStr := nth_error parts 1 in
  let startTime := nth_error parts 2 in
  let endTime := nth_error parts 3 in
  if negb (truthy mentorId) || negb (truthy dateStr)
     || negb (truthy startTime) || negb (truthy endTime)
  then ret (Unavailable "Invalid slot information")
  else
    existingSessions <- Session_find
        (conflictQuery (str mentorId) (str dateStr)
                       (str startTime) (str endTime) now) ;;
    if (length existingSessions =? 0)%nat then ret Available
    else
      let confirmedSessions :=
        filter (fun session => String.eqb (status session) SessionStatus.CONFIRMED)
               existingSessions in
      if (0 <? length confirmedSessions)%nat
      then ret (Unavailable "This time slot is already booked")
      else
        let reservedSessions :=
          filter (fun session => String.eqb (status session) SessionStatus.RESERVED)
                 existingSessions in
        if (0 <? length reservedSessions)%nat then
          match (if truthy userId
                 then find (fun session => String.eqb (menteeId session) (str userId))
                           reservedSessions
                 else None) with
          | Some userReservedSession =>
              ret (AvailableForUser (reservationExpires userReservedSession))
          | None =>
              match nth_error reservedSessions 0 with
              | Some first =>
                  ret (UnavailableReserved "This time slot is temporarily reserved"
                                           (reservationExpires first))
              | None => throw (MkError "TypeError")
              end
          end
        else ret Available.

(** [now] is the instant read by [new Date()]; [userId] is [None] when the
    caller passes no user. *)
Definition isSessionAvailable (now : Date) (slotInfo : string)
           (userId : option string) : M Availability :=
  try_catch (isSessionAvailable_try now slotInfo userId)
            (fun _ => ret (Unavailable "Error checking availability")).

(** ** Running an operation *)

Definition result_of {A} (m : M A) (w : Store) : Outcome A := fst (m w).
Definition store_after {A} (m : M A) (w : Store) : Store := snd (m w).

(** The run of [m] from [w] ends without an exception. *)
Definition returns {A} (m : M A) (w : Store) : Prop :=
  exists a, result_of m w = Returned a.

(** ** Notions the properties are stated with *)

(** The instant [t] lies in the range that starts at [a] and ends before
    [b]. *)
Definition in_range (t a b : string) : Prop :=
  Time.le a t /\ Time.lt t b.

(** Two time ranges overlap when some instant lies in both. *)
Definition ranges_overlap (a b c d : string) : Prop :=
  exists t, in_range t a b /\ in_range t c d.

(** The overlap test of the availability query on one record. *)
Definition overlap_test (s : Session) (startTime endTime : string) : bool :=
  matches (overlapQuery startTime endTime) s.

(** A session of the requested mentor on the requested date that the query
    takes to overlap the slot. *)
Definition concerns (s : Session) (mentor day startTime endTime : string) : Prop :=
  mentorId s = mentor /\ date s = day /\ overlap_test s startTime endTime = true.

(** A hold whose expiry is strictly before [now]. *)
Definition is_expired_hold (now : Date) (s : Session) : bool :=
  String.eqb (status s) SessionStatus.RESERVED
  && match reservationExpires s with
     | Some t => (t <? now)%Z
     | None => false
     end.

(** A hold whose expiry is not after [now]. *)
Definition lapsed_hold (now : Date) (s : Session) : Prop :=
  status s = SessionStatus.RESERVED
  /\ exists t, reservationExpires s = Some t /\ (t <= now)%Z.

(** A hold whose expiry is after [now]. *)
Definition live_hold (now : Date) (s : Session) : Prop :=
  status s = SessionStatus.RESERVED
  /\ exists t, reservationExpires s = Some t /\ (now < t)%Z.

(** The descriptor [slotInfo] has the four components [m], [d], [s], [e],
    none of them empty. *)
Definition slot_of (slotInfo m d s e : string) : Prop :=
  let parts := split "_" slotInfo in
  nth_error parts 0 = Some m /\ nth_error parts 1 = Some d
  /\ nth_error parts 2 = Some s /\ nth_error parts 3 = Some e
  /\ m <> "" /\ d <> "" /\ s <> "" /\ e <> "".

(** One of the first four components of [slotInfo] is missing or empty. *)
Definition invalid_slot (slotInfo : string) : Prop :=
  exists i, (i < 4)%nat
            /\ (nth_error (split "_" slotInfo) i = None
                \/ nth_error (split "_" slotInfo) i = Some "").

(** A caller that passes a user id, and not the empty one. *)
Definition supplied (userId : option string) (u : string) : Prop :=
  userId = Some u /\ u <> "".

(** Calls that only read. *)
Definition read_only (c : Call) : bool :=
  match c with
  | CallConnect | CallFind _ => true
  | CallDeleteMany _ => false
  end.

(** The part of [isSessionAvailable] that follows the query, as a function
    of the records returned. *)
Definition verdict (userId : option string) (existingSessions : list Session)
  : M Availability :=
  if (length existingSessions =? 0)%nat then ret Available
  else
    let confirmedSessions :=
      filter (fun session => String.eqb (status session) SessionStatus.CONFIRMED)
             existingSessions in
    if (0 <? length confirmedSessions)%nat
    then ret (Unavailable "This time slot is already booked")
    else
      let reservedSessions :=
        filter (fun session => String.eqb (status session) SessionStatus.RESERVED)
               existingSessions in
      if (0 <? length reservedSessions)%nat then
        match (if truthy userId
               then find (fun session => String.eqb (menteeId session) (str userId))
                         reservedSessions
               else None) with
        | Some userReservedSession =>
            ret (AvailableForUser (reservationExpires userReservedSession))
        | None =>
            match nth_error reservedSessions 0 with
            | Some first =>
                ret (UnavailableReserved "This time slot is temporarily reserved"
                                         (reservationExpires first))
            | None => throw (MkError "TypeError")
            end
        end
      else ret Available.

(** Two distinct sessions that the data model forbids to overlap: one of
    them is confirmed, or both are holds that have not expired. *)
Definition must_not_overlap (now : Date) (a b : Session) : Prop :=
  status a = SessionStatus.CONFIRMED \/ status b = SessionStatus.CONFIRMED
  \/ (live_hold now a /\ live_hold now b).

Definition no_double_booking (now : Date) (l : list Session) : Prop :=
  forall a b,
    In a l -> In b l -> _id a <> _id b ->
    mentorId a = mentorId b -> date a = date b ->
    must_not_overlap now a b ->
    ~ ranges_overlap (startTime a) (endTime a) (startTime b) (endTime b).

(** ** Names for the steps of a run *)

(** The outcome scheduled for the next call, and the store it leaves. *)
Definition scheduled (w : Store) : option Error := hd None (faults w).

Definition after (c : Call) (w : Store) : Store :=
  mkStore (sessions w) (tl (faults w)) (journal w ++ [c]).

(** The [i]-th component of the descriptor, [undefined] when missing. *)
Definition component (slotInfo : string) (i : nat) : option string :=
  nth_error (split "_" slotInfo) i.

(** The guard [!mentorId || !dateStr || !startTime || !endTime]. *)
Definition rejected (slotInfo : string) : bool :=
  negb (truthy (component slotInfo 0)) || negb (truthy (component slotInfo 1))
  || negb (truthy (component slotInfo 2)) || negb (truthy (component slotInfo 3)).

(** The query that [isSessionAvailable] sends for [slotInfo]. *)
Definition slotQuery (now : Date) (slotInfo : string) : Filter :=
  conflictQuery (str (component slotInfo 0)) (str (component slotInfo 1))
                (str (component slotInfo 2)) (str (component slotInfo 3)) now.

(** The query by which the sweep deletes what it found. *)
Definition sweepQuery (now : Date) (w : Store) : Filter :=
  FieldIn P_id (map _id (filter (matches (expiredQuery now)) (sessions w))).

(** The tests and texts of the decision. *)
Definition is_confirmed (x : Session) : bool :=
  String.eqb (status x) SessionStatus.CONFIRMED.

Definition is_reserved (x : Session) : bool :=
  String.eqb (status x) SessionStatus.RESERVED.

Definition held_by (u : string) (x : Session) : bool :=
  String.eqb (menteeId x) u.

Definition booked_msg : string := "This time slot is already booked".
Definition held_msg : string := "This time slot is temporarily reserved".

Definition invalid_msg : string := "Invalid slot information".
Definition error_msg : string := "Error checking availability".

(** The decision of [isSessionAvailable] on the records the query returned,
    as a value: what [verdict] returns. *)
Definition decision (userId : option string) (l : list Session) : Availability :=
  if existsb is_confirmed l then Unavailable booked_msg
  else
    match (if truthy userId
           then find (fun x => is_reserved x && held_by (str userId) x) l
           else None) with
    | Some own => AvailableForUser (reservationExpires own)
    | None =>
        match find is_reserved l with
        | Some first => UnavailableReserved held_msg (reservationExpires first)
        | None => Available
        end
    end.

(** A session of mentor [m] on day [d]. *)
Definition of_mentor_day (m d : string) (x : Session) : bool :=
  String.eqb (mentorId x) m && String.eqb (date x) d.

(** The string [s] does not contain the character [sep]. *)
Fixpoint free_of (sep : ascii) (s : string) : bool :=
  match s with
  | EmptyString => true
  | String c rest => negb (Ascii.eqb c sep) && free_of sep rest
  end.

(** The descriptor in the documented format
    [mentorId_date_startTime_endTime]. *)
Definition descriptor (m d s e : string) : string :=
  m ++ "_" ++ d ++ "_" ++ s ++ "_" ++ e.

(** ** The session list

    [SessionList] is a function from its props to an element tree.  An
    element is kept with its tag, its string attributes and its children; an
    array of elements is a [Group] and a [false] or [undefined] child, which
    renders nothing, is [Nothing].  Numbers are carried as integers and the
    date of a session as a string. *)

Module SessionCard.

Record Props : Type := mkProps {
  id : string;
  name : string;
  title : string;
  image : string;
  sessionDate : string;
  sessionStartTime : string;
  sessionDuration : Z;
  sessionStatus : string;
  type : string;
  isJoinable : bool;
  otherUserId : string;
  isUpcoming : bool;
  rating : option Z;
  isMentor : bool
}.

End SessionCard.

Module UI.

Record Session : Type := mkSession {
  id : string;
  menteeId : string;
  mentorId : string;
  mentorName : string;
  mentorTitle : string;
  mentorImage : string;
  date : string;
  startTime : string;
  type : string;
  isJoinable : bool;
  rating : option Z;
  rated : option bool;
  duration : Z;
  status : string
}.

(** The [type] prop: ["upcoming" | "previous"]. *)
Inductive ListType : Type := upcoming | previous.

Record EmptyStateAction : Type := mkAction {
  label : string;
  href : string
}.

Inductive Node : Type :=
| Text (s : string)
| El (tag : string) (attrs : list (string * string)) (children : list Node)
| Card (key : string) (props : SessionCard.Props)
| Group (items : list Node)
| Nothing.

Definition SessionList (sessions : list Session) (header : string)
           (type : ListType) (emptyStateAction : option EmptyStateAction) : Node :=
  let isUpcoming := match type with upcoming => true | previous => false end in
  El "Card" [] [
    El "CardHeader" [] [ El "CardTitle" [] [Text header] ];
    El "CardContent" [] [
      if (0 <? length sessions)%nat then
        El "div" [("className", "space-y-4")] [
          Group (map (fun session =>
                        Card (id session)
                             (SessionCard.mkProps
                                (id session) (mentorName session)
                                (mentorTitle session) (mentorImage session)
                                (date session) (startTime session)
                                (duration session) (status session)
                                (UI.type session) (isJoinable session)
                                (mentorId session) isUpcoming
                                (rating session) false))
                     sessions);
          if isUpcoming then
            El "div" [("className", "flex justify-center mt-4")] [
              El "Button" [("asChild", "true")] [
                El "Link" [("href", "/mentors")] [Text "Book More Sessions"] ] ]
          else Nothing ]
      else
        El "div" [("className", "text-center py-4")] [
          El "p" [("className", "text-gray-500 mb-4")] [Text "No "; Text header];
          match emptyStateAction with
          | Some action =>
              El "Button" [("asChild", "true")] [
                El "Link" [("href", href action)] [Text (label action)] ]
          | None => Nothing
          end ] ] ].

(** The session cards of a tree, in document order. *)
Fixpoint cards (n : Node) : list (string * SessionCard.Props) :=
  match n with
  | Card key props => [(key, props)]
  | El _ _ children => flat_map cards children
  | Group items => flat_map cards items
  | Text _ | Nothing => []
  end.

Definition attr (k : string) (attrs : list (string * string)) : option string :=
  match find (fun kv => String.eqb (fst kv) k) attrs with
  | Some kv => Some (snd kv)
  | None => None
  end.

(** The targets of the links of a tree, in document order. *)
Fixpoint links (n : Node) : list string :=
  match n with
  | El tag attrs children =>
      (if String.eqb tag "Link"
       then match attr "href" attrs with Some h => [h] | None => [] end
       else [])
      ++ flat_map links children
  | Group items => flat_map links items
  | Card _ _ | Text _ | Nothing => []
  end.

(** The text of a tree, in document order. *)
Fixpoint texts (n : Node) : list string :=
  match n with
  | Text s => [s]
  | El _ _ children => flat_map texts children
  | Group items => flat_map texts items
  | Card _ _ | Nothing => []
  end.

End UI.

(** ** Sample data *)

Module Sample.

Definition booked : Session :=
  mkSession "s1" "u1" "m1" "2025-03-01" "09:30" "10:30"
            SessionStatus.CONFIRMED None.

Definition held (id who from to : string) (until : Date) : Session :=
  mkSession id who "m1" "2025-03-01" from to
            SessionStatus.RESERVED (Some until).

Definition up (l : list Session) : Store := mkStore l [] [].

Definition down (l : list Session) : Store :=
  mkStore l [Some (MkError "ECONNREFUSED")] [].

End Sample.

(** * Properties *)

Local Open Scope Z_scope.

Example split_four :
  split "_" "m1_2025-03-01_09:00_10:00" = ["m1"; "2025-03-01"; "09:00"; "10:00"].
Proof. reflexivity. Qed.

Example split_empty : split "_" "" = [""].
Proof. reflexivity. Qed.

Example split_trailing : split "_" "m1_" = ["m1"; ""].
Proof. reflexivity. Qed.

Example free_slot :
  result_of (isSessionAvailable 100 "m1_2025-03-01_11:00_12:00" None)
            (Sample.up [Sample.booked]) = Returned Available.
Proof. reflexivity. Qed.

Example taken_slot :
  result_of (isSessionAvailable 100 "m1_2025-03-01_10:00_11:00" None)
            (Sample.up [Sample.booked])
  = Returned (Unavailable "This time slot is already booked").
Proof. reflexivity. Qed.

Example held_slot :
  result_of (isSessionAvailable 100 "m1_2025-03-01_10:00_11:00" (Some "u9"))
            (Sample.up [Sample.held "s2" "u2" "10:00" "11:00" 500])
  = Returned (UnavailableReserved "This time slot is temporarily reserved" (Some 500)).
Proof. reflexivity. Qed.

Example lapsed_slot :
  result_of (isSessionAvailable 500 "m1_2025-03-01_10:00_11:00" (Some "u9"))
            (Sample.up [Sample.held "s2" "u2" "10:00" "11:00" 500])
  = Returned Available.
Proof. reflexivity. Qed.

Example sweep :
  cleanupExpiredReservations 501
    (Sample.up [Sample.booked; Sample.held "s2" "u2" "10:00" "11:00" 500])
  = (Returned (CleanupDone 1 1),
     mkStore [Sample.booked] []
             [CallConnect; CallFind (expiredQuery 501); CallDeleteMany (FieldIn P_id ["s2"])]).
Proof. reflexivity. Qed.

(** ** The order on time strings *)

Module TimeFacts.

Lemma ltb_lts a b : Time.ltb a b = true <-> String_as_OT.lt a b.
Proof.
  rewrite <- String_as_OT.cmp_lt.
  unfold Time.ltb, String.ltb, String_as_OT.cmp.
  destruct (String.compare a b); split; congruence.
Qed.

Lemma leb_negb_ltb a b : Time.leb a b = negb (Time.ltb b a).
Proof.
  unfold Time.leb, Time.ltb, String.leb, String.ltb.
  rewrite (String.compare_antisym b a).
  destruct (String.compare a b); reflexivity.
Qed.

Lemma lt_irrefl a : ~ Time.lt a a.
Proof.
  unfold Time.lt. rewrite ltb_lts. intro H.
  exact (String_as_OT.lt_not_eq _ _ H eq_refl).
Qed.

Lemma lt_trans a b c : Time.lt a b -> Time.lt b c -> Time.lt a c.
Proof.
  unfold Time.lt. rewrite !ltb_lts. apply String_as_OT.lt_trans.
Qed.

Lemma le_refl a : Time.le a a.
Proof.
  unfold Time.le. rewrite leb_negb_ltb.
  destruct (Time.ltb a a) eqn:E; [exfalso; exact (lt_irrefl a E) | reflexivity].
Qed.

Lemma le_cases a b : Time.le a b <-> Time.lt a b \/ a = b.
Proof.
  unfold Time.le, Time.lt, Time.leb, Time.ltb, String.leb, String.ltb.
  destruct (String.compare a b) eqn:E; split; intros H; auto; try discriminate.
  - right. now apply String.compare_eq_iff.
  - destruct H as [H | H]; [discriminate |].
    subst b. pose proof (le_refl a) as R.
    unfold Time.le, Time.leb, String.leb in R. now rewrite E in R.
Qed.

Lemma lt_le a b : Time.lt a b -> Time.le a b.
Proof. intro H. apply le_cases. now left. Qed.

Lemma le_lt_trans a b c : Time.le a b -> Time.lt b c -> Time.lt a c.
Proof.
  intros H1 H2. apply le_cases in H1. destruct H1 as [H1 | ->]; auto.
  eapply lt_trans; eassumption.
Qed.

Lemma lt_le_trans a b c : Time.lt a b -> Time.le b c -> Time.lt a c.
Proof.
  intros H1 H2. apply le_cases in H2. destruct H2 as [H2 | <-]; auto.
  eapply lt_trans; eassumption.
Qed.

Lemma le_or_lt a b : Time.le a b \/ Time.lt b a.
Proof.
  unfold Time.le, Time.lt. rewrite leb_negb_ltb.
  destruct (Time.ltb b a); auto.
Qed.

Lemma not_le_lt a b : Time.leb a b = false -> Time.lt b a.
Proof.
  unfold Time.lt. rewrite leb_negb_ltb.
  destruct (Time.ltb b a); simpl; congruence.
Qed.

Lemma max_ub_l a b : Time.le a (Time.max a b).
Proof.
  unfold Time.max. destruct (Time.leb a b) eqn:E; [exact E | apply le_refl].
Qed.

Lemma max_ub_r a b : Time.le b (Time.max a b).
Proof.
  unfold Time.max. destruct (Time.leb a b) eqn:E; [apply le_refl |].
  apply lt_le. now apply not_le_lt.
Qed.

Lemma max_lt a b c : Time.lt a c -> Time.lt b c -> Time.lt (Time.max a b) c.
Proof. unfold Time.max. destruct (Time.leb a b); auto. Qed.

(** Two ranges share an instant exactly when each starts before the other
    ends and neither is empty. *)
Lemma ranges_overlap_iff a b c d :
  ranges_overlap a b c d
  <-> Time.lt a b /\ Time.lt c d /\ Time.lt a d /\ Time.lt c b.
Proof.
  unfold ranges_overlap, in_range. split.
  - intros (t & (Hat & Htb) & (Hct & Htd)).
    repeat split; eapply le_lt_trans; eassumption.
  - intros (Hab & Hcd & Had & Hcb).
    exists (Time.max a c). repeat split.
    + apply max_ub_l.
    + now apply max_lt.
    + apply max_ub_r.
    + now apply max_lt.
Qed.

End TimeFacts.

(** ** The overlap test *)

Lemma overlap_test_unfold (s : Session) (a b : string) :
  overlap_test s a b
  = (Time.leb (startTime s) a && Time.ltb a (endTime s))
    || (Time.ltb (startTime s) b && Time.leb b (endTime s))
    || (Time.leb a (startTime s) && Time.leb (endTime s) b).
Proof.
  unfold overlap_test, overlapQuery. simpl.
  rewrite !andb_true_r, orb_false_r, orb_assoc. reflexivity.
Qed.

(** For ranges that start before they end, the test holds on overlapping
    ranges only. *)
Lemma overlap_test_sound (s : Session) (a b : string) :
  Time.lt (startTime s) (endTime s) -> Time.lt a b ->
  overlap_test s a b = true ->
  ranges_overlap (startTime s) (endTime s) a b.
Proof.
  intros Hs Hq. rewrite overlap_test_unfold, TimeFacts.ranges_overlap_iff.
  rewrite !orb_true_iff, !andb_true_iff.
  fold (Time.le (startTime s) a) (Time.lt a (endTime s))
       (Time.lt (startTime s) b) (Time.le b (endTime s))
       (Time.le a (startTime s)) (Time.le (endTime s) b).
  intros [[[H1 H2] | [H1 H2]] | [H1 H2]]; repeat split; auto.
  - eapply TimeFacts.le_lt_trans; eassumption.
  - eapply TimeFacts.lt_le_trans; eassumption.
  - eapply TimeFacts.lt_le_trans; eassumption.
  - eapply TimeFacts.le_lt_trans; eassumption.
Qed.

(** The test holds on all overlapping ranges. *)
Lemma overlap_test_complete (s : Session) (a b : string) :
  ranges_overlap (startTime s) (endTime s) a b ->
  overlap_test s a b = true.
Proof.
  rewrite overlap_test_unfold, TimeFacts.ranges_overlap_iff.
  rewrite !orb_true_iff, !andb_true_iff.
  fold (Time.le (startTime s) a) (Time.lt a (endTime s))
       (Time.lt (startTime s) b) (Time.le b (endTime s))
       (Time.le a (startTime s)) (Time.le (endTime s) b).
  intros (_ & _ & H1 & H2).
  destruct (TimeFacts.le_or_lt (startTime s) a) as [L | L]; [left; left; auto |].
  destruct (TimeFacts.le_or_lt b (endTime s)) as [R | R]; [left; right; auto |].
  right. split; now apply TimeFacts.lt_le.
Qed.

(** C1, as amended.  For a session and a queried slot that both start
    before they end (as strings), the three-way test of the availability
    query holds exactly when the session's time range and the queried range
    have an instant in common. *)
Theorem overlap_test_iff_ranges_overlap :
  forall (s : Session) (start_ end_ : string),
    Time.lt (startTime s) (endTime s) ->
    Time.lt start_ end_ ->
    (overlap_test s start_ end_ = true
     <-> ranges_overlap (startTime s) (endTime s) start_ end_).
Proof.
  intros s a b Hs Hq. split.
  - now apply overlap_test_sound.
  - apply overlap_test_complete.
Qed.

Lemma overlap_test_iff_ranges_overlap_witness :
  Time.lt "09:30" "10:30" /\ Time.lt "10:00" "11:00"
  /\ (overlap_test Sample.booked "10:00" "11:00" = true
      <-> ranges_overlap "09:30" "10:30" "10:00" "11:00").
Proof.
  split; [reflexivity | split; [reflexivity |]].
  apply (overlap_test_iff_ranges_overlap Sample.booked "10:00" "11:00");
    reflexivity.
Defined.

(** C1, as stated, fails: for the slot that starts at 10:00 and ends at
    09:00 the test holds on a session from 09:30 to 10:30, and no instant is
    both at or after 10:00 and before 09:00. *)
Lemma overlap_test_inverted_slot :
  overlap_test Sample.booked "10:00" "09:00" = true
  /\ ~ ranges_overlap (startTime Sample.booked) (endTime Sample.booked)
                      "10:00" "09:00".
Proof.
  split; [reflexivity |].
  rewrite TimeFacts.ranges_overlap_iff. intros (_ & H & _). discriminate H.
Qed.

(** ** Database calls, step by step *)

Lemma call_run (c : Call) (w : Store) :
  call c w = (match scheduled w with
              | Some e => Thrown e
              | None => Returned tt
              end, after c w).
Proof.
  unfold call, scheduled, after.
  destruct (faults w) as [| [e |] rest]; reflexivity.
Qed.

Lemma Session_find_run (q : Filter) (w : Store) :
  Session_find q w
  = (match scheduled w with
     | Some e => Thrown e
     | None => Returned (filter (matches q) (sessions w))
     end, after (CallFind q) w).
Proof.
  unfold Session_find, bind. rewrite call_run.
  destruct (scheduled w); reflexivity.
Qed.

Lemma Session_deleteMany_run (q : Filter) (w : Store) :
  Session_deleteMany q w
  = match scheduled w with
    | Some e => (Thrown e, after (CallDeleteMany q) w)
    | None =>
        (Returned (length (filter (matches q) (sessions w))),
         mkStore (filter (fun s => negb (matches q s)) (sessions w))
                 (tl (faults w)) (journal w ++ [CallDeleteMany q]))
    end.
Proof.
  unfold Session_deleteMany, bind. rewrite call_run.
  destruct (scheduled w); reflexivity.
Qed.

Lemma returns_connectDB (w : Store) :
  returns connectDB w <-> scheduled w = None.
Proof.
  unfold returns, result_of, connectDB. rewrite call_run. simpl.
  destruct (scheduled w); split; intros H; try congruence.
  - destruct H as [a H]. discriminate.
  - now exists tt.
Qed.

(** ** The slot descriptor *)

Lemma truthy_false (x : option string) :
  truthy x = false <-> x = None \/ x = Some "".
Proof.
  destruct x as [v |]; simpl.
  - rewrite negb_false_iff, String.eqb_eq. split.
    + intros ->. now right.
    + intros [H | H]; congruence.
  - split; auto.
Qed.

Lemma truthy_true (x : option string) :
  truthy x = true <-> exists v, x = Some v /\ v <> "".
Proof.
  destruct x as [v |]; simpl.
  - rewrite negb_true_iff, String.eqb_neq. split.
    + intros H. now exists v.
    + intros (v' & E & H). congruence.
  - split; [discriminate | intros (v & E & _); discriminate].
Qed.

Lemma rejected_invalid (slotInfo : string) :
  rejected slotInfo = true <-> invalid_slot slotInfo.
Proof.
  unfold rejected, invalid_slot. fold (component slotInfo).
  rewrite !orb_true_iff, !negb_true_iff, !truthy_false. split.
  - intros [[[H | H] | H] | H];
      [exists 0%nat | exists 1%nat | exists 2%nat | exists 3%nat];
      (split; [lia | exact H]).
  - intros (i & Hi & H).
    destruct i as [| [| [| [| i]]]]; try lia; tauto.
Qed.

Lemma slot_of_accepted (slotInfo m d s e : string) :
  slot_of slotInfo m d s e ->
  rejected slotInfo = false
  /\ str (component slotInfo 0) = m /\ str (component slotInfo 1) = d
  /\ str (component slotInfo 2) = s /\ str (component slotInfo 3) = e.
Proof.
  unfold slot_of, rejected, component.
  intros (H0 & H1 & H2 & H3 & Nm & Nd & Ns & Ne).
  rewrite H0, H1, H2, H3. simpl.
  apply String.eqb_neq in Nm, Nd, Ns, Ne.
  rewrite Nm, Nd, Ns, Ne. auto.
Qed.

(** ** The body of isSessionAvailable, unfolded along its calls *)

Lemma isSessionAvailable_try_run now slotInfo userId w :
  isSessionAvailable_try now slotInfo userId w
  = let w1 := after CallConnect w in
    match scheduled w with
    | Some e => (Thrown e, w1)
    | None =>
        if rejected slotInfo
        then (Returned (Unavailable "Invalid slot information"), w1)
        else
          let w2 := after (CallFind (slotQuery now slotInfo)) w1 in
          match scheduled w1 with
          | Some e => (Thrown e, w2)
          | None =>
              verdict userId (filter (matches (slotQuery now slotInfo)) (sessions w)) w2
          end
    end.
Proof.
  unfold isSessionAvailable_try, bind, connectDB. rewrite call_run.
  destruct (scheduled w) as [e |]; [reflexivity |].
  fold (component slotInfo 0) (component slotInfo 1)
       (component slotInfo 2) (component slotInfo 3).
  fold (rejected slotInfo).
  destruct (rejected slotInfo); [reflexivity |].
  fold (slotQuery now slotInfo).
  rewrite Session_find_run.
  destruct (scheduled (after CallConnect w)) as [e |]; reflexivity.
Qed.

(** The decision itself makes no call and leaves the store alone. *)
Lemma verdict_store userId l w : snd (verdict userId l w) = w.
Proof.
  unfold verdict.
  repeat match goal with
         | |- context [if ?b then _ else _] => destruct b
         | |- context [match ?x with Some _ => _ | None => _ end] => destruct x
         end; reflexivity.
Qed.

(** ** Lists of records *)

Section ListFacts.

Context {A : Type}.
Variables f g : A -> bool.

Lemma filter_nonempty (l : list A) :
  (0 <? length (filter f l))%nat = existsb f l.
Proof.
  induction l as [| x l IH]; simpl; [reflexivity |].
  destruct (f x); simpl; [reflexivity | exact IH].
Qed.

Lemma find_filter (l : list A) :
  find f (filter g l) = find (fun x => g x && f x) l.
Proof.
  induction l as [| x l IH]; simpl; [reflexivity |].
  destruct (g x); simpl; [| exact IH].
  destruct (f x); [reflexivity | exact IH].
Qed.

Lemma head_filter (l : list A) : nth_error (filter f l) 0 = find f l.
Proof.
  induction l as [| x l IH]; simpl; [reflexivity |].
  destruct (f x); simpl; [reflexivity | exact IH].
Qed.

Lemma existsb_find (l : list A) :
  existsb f l = match find f l with Some _ => true | None => false end.
Proof.
  induction l as [| x l IH]; simpl; [reflexivity |].
  destruct (f x); simpl; [reflexivity | exact IH].
Qed.

Lemma filter_nil_iff (l : list A) :
  filter f l = [] <-> forall x, In x l -> f x = false.
Proof.
  induction l as [| x l IH]; simpl.
  - split; [intros _ y [] | reflexivity].
  - destruct (f x) eqn:E; split.
    + discriminate.
    + intros H. specialize (H x (or_introl eq_refl)). congruence.
    + intros H y [<- | Hy]; [exact E | now apply IH].
    + intros H. apply IH. intros y Hy. apply H. now right.
Qed.

Lemma find_exists (l : list A) :
  (exists x, In x l /\ f x = true) -> exists y, find f l = Some y.
Proof.
  intros (x & Hx & Hf).
  destruct (find f l) as [y |] eqn:E; [now exists y |].
  exfalso. pose proof (find_none f l E x Hx). congruence.
Qed.

End ListFacts.

(** ** The decision on the returned records *)

Lemma verdict_run (userId : option string) (l : list Session) (w : Store) :
  verdict userId l w
  = (if existsb is_confirmed l then Returned (Unavailable booked_msg)
     else
       match (if truthy userId
              then find (fun x => is_reserved x && held_by (str userId) x) l
              else None) with
       | Some own => Returned (AvailableForUser (reservationExpires own))
       | None =>
           match find is_reserved l with
           | Some first => Returned (UnavailableReserved held_msg (reservationExpires first))
           | None => Returned Available
           end
       end, w).
Proof.
  unfold verdict.
  fold is_confirmed is_reserved.
  change (fun session : Session => String.eqb (menteeId session) (str userId))
    with (held_by (str userId)).
  rewrite !filter_nonempty, find_filter, head_filter.
  destruct l as [| x l]; [destruct (truthy userId); reflexivity |].
  cbv beta iota delta [length Nat.eqb].
  destruct (existsb is_confirmed (x :: l)); [reflexivity |].
  rewrite (existsb_find is_reserved).
  set (own_hold := fun x0 : Session => is_reserved x0 && held_by (str userId) x0).
  destruct (truthy userId).
  - destruct (find own_hold (x :: l)) as [own |] eqn:O.
    + destruct (find is_reserved (x :: l)) as [first |] eqn:R; [reflexivity |].
      exfalso. apply find_some in O. destruct O as [Hin Ho].
      apply andb_true_iff in Ho. destruct Ho as [Ho _].
      pose proof (find_none _ _ R own Hin). congruence.
    + destruct (find is_reserved (x :: l)); reflexivity.
  - destruct (find is_reserved (x :: l)); reflexivity.
Qed.

(** ** What the availability query selects *)

Lemma RESERVED_neq_CONFIRMED : SessionStatus.RESERVED <> SessionStatus.CONFIRMED.
Proof. discriminate. Qed.

Lemma is_confirmed_true x : is_confirmed x = true <-> status x = SessionStatus.CONFIRMED.
Proof. apply String.eqb_eq. Qed.

Lemma is_reserved_true x : is_reserved x = true <-> status x = SessionStatus.RESERVED.
Proof. apply String.eqb_eq. Qed.

Lemma liveQuery_matches now x :
  matches (liveQuery now) x = true
  <-> status x = SessionStatus.CONFIRMED \/ live_hold now x.
Proof.
  unfold liveQuery, live_hold. simpl.
  rewrite orb_false_r, andb_true_r, orb_true_iff, andb_true_iff, !String.eqb_eq.
  destruct (reservationExpires x) as [t |]; simpl.
  - rewrite Z.ltb_lt. split.
    + intros [H | [H1 H2]]; [now left | right; split; [exact H1 | now exists t]].
    + intros [H | [H1 (t' & E & H2)]]; [now left | right].
      injection E as <-. now split.
  - split.
    + intros [H | [_ H]]; [now left | discriminate].
    + intros [H | [_ (t & E & _)]]; [now left | discriminate].
Qed.

Lemma conflictQuery_matches m d s e now x :
  matches (conflictQuery m d s e now) x = true
  <-> concerns x m d s e
      /\ (status x = SessionStatus.CONFIRMED \/ live_hold now x).
Proof.
  unfold conflictQuery, concerns.
  change (matches (All ?qs) x) with (forallb (fun q' => matches q' x) qs).
  cbn [forallb].
  change (matches (All ?qs) x) with (forallb (fun q' => matches q' x) qs).
  cbn [forallb].
  fold (overlap_test x s e).
  rewrite !andb_true_r, !andb_true_iff, liveQuery_matches.
  cbn [matches field]. rewrite !String.eqb_eq. tauto.
Qed.

(** With a well-formed descriptor and no exception, the answer is the
    decision on the records the query selects. *)
Lemma isSessionAvailable_answer now slotInfo userId w m d s e :
  slot_of slotInfo m d s e ->
  returns (isSessionAvailable_try now slotInfo userId) w ->
  result_of (isSessionAvailable now slotInfo userId) w
  = fst (verdict userId
                 (filter (matches (conflictQuery m d s e now)) (sessions w)) w).
Proof.
  intros Hslot [a Ha].
  apply slot_of_accepted in Hslot.
  destruct Hslot as (Hacc & E0 & E1 & E2 & E3).
  unfold result_of, isSessionAvailable, try_catch in *.
  rewrite isSessionAvailable_try_run in *. cbv zeta in *.
  unfold slotQuery in *. rewrite Hacc, E0, E1, E2, E3 in *.
  destruct (scheduled w); [discriminate |].
  destruct (scheduled (after CallConnect w)); [discriminate |].
  rewrite !verdict_run in *. cbn [fst] in Ha |- *.
  rewrite Ha. reflexivity.
Qed.

(** When the query selects nothing, the slot is free. *)
Lemma nothing_selected_available now slotInfo userId w m d s e :
  slot_of slotInfo m d s e ->
  returns (isSessionAvailable_try now slotInfo userId) w ->
  (forall x, In x (sessions w) -> matches (conflictQuery m d s e now) x = false) ->
  result_of (isSessionAvailable now slotInfo userId) w = Returned Available.
Proof.
  intros Hslot Hret Hnone.
  rewrite (isSessionAvailable_answer _ _ _ _ _ _ _ _ Hslot Hret).
  apply filter_nil_iff in Hnone.
  rewrite Hnone, verdict_run. simpl. destruct (truthy userId); reflexivity.
Qed.

Lemma lapsed_not_selected m d s e now x :
  (concerns x m d s e -> lapsed_hold now x) ->
  matches (conflictQuery m d s e now) x = false.
Proof.
  intros H.
  destruct (matches (conflictQuery m d s e now) x) eqn:Hm; [| reflexivity].
  exfalso. apply conflictQuery_matches in Hm. destruct Hm as [Hc Hlive].
  destruct (H Hc) as (Hst & t & Ht & Hle).
  destruct Hlive as [Hconf | (_ & t' & Ht' & Hlt)].
  - apply RESERVED_neq_CONFIRMED. congruence.
  - rewrite Ht in Ht'. injection Ht' as <-. lia.
Qed.

(** With overlap as the query tests it: when every session of the requested
    mentor and date that the query takes to overlap the requested slot is a
    hold whose expiry is not after [now], the answer of a run without
    exception is [{ available: true }]. *)
Lemma lapsed_holds_do_not_block :
  forall (now : Date) (slotInfo : string) (userId : option string) (w : Store)
         (m d s e : string),
    slot_of slotInfo m d s e ->
    returns (isSessionAvailable_try now slotInfo userId) w ->
    (forall x, In x (sessions w) -> concerns x m d s e -> lapsed_hold now x) ->
    result_of (isSessionAvailable now slotInfo userId) w = Returned Available.
Proof.
  intros now slotInfo userId w m d s e Hslot Hret Hall.
  apply (nothing_selected_available _ _ _ _ _ _ _ _ Hslot Hret).
  intros x Hx. apply lapsed_not_selected. now apply Hall.
Qed.

Lemma lapsed_holds_do_not_block_witness :
  result_of (isSessionAvailable 500 "m1_2025-03-01_10:00_11:00" (Some "u9"))
            (Sample.up [Sample.held "s2" "u2" "10:00" "11:00" 500])
  = Returned Available.
Proof.
  apply (lapsed_holds_do_not_block 500 "m1_2025-03-01_10:00_11:00" (Some "u9")
           (Sample.up [Sample.held "s2" "u2" "10:00" "11:00" 500])
           "m1" "2025-03-01" "10:00" "11:00").
  - repeat split; discriminate.
  - exists Available. reflexivity.
  - intros x [<- | []] _. split; [reflexivity |].
    exists 500. split; [reflexivity | lia].
Defined.

(** C6.  For a descriptor in which one of the four components is missing or
    empty, a run in which the connection is established answers
    [{ available: false, reason: "Invalid slot information" }]; the only
    database call made is the connection, so the session collection is not
    queried. *)
Theorem invalid_slot_rejected_without_query :
  forall (now : Date) (slotInfo : string) (userId : option string) (w : Store),
    invalid_slot slotInfo ->
    returns connectDB w ->
    result_of (isSessionAvailable now slotInfo userId) w
    = Returned (Unavailable "Invalid slot information")
    /\ journal (store_after (isSessionAvailable now slotInfo userId) w)
       = journal w ++ [CallConnect]
    /\ sessions (store_after (isSessionAvailable now slotInfo userId) w)
       = sessions w.
Proof.
  intros now slotInfo userId w Hinv Hconn.
  apply rejected_invalid in Hinv. apply returns_connectDB in Hconn.
  unfold result_of, store_after, isSessionAvailable, try_catch.
  rewrite isSessionAvailable_try_run. cbv zeta.
  rewrite Hconn, Hinv. repeat split.
Qed.

Lemma invalid_slot_rejected_without_query_witness :
  result_of (isSessionAvailable 100 "m1_2025-03-01__10:00" None)
            (Sample.up [Sample.booked])
  = Returned (Unavailable "Invalid slot information")
  /\ journal (store_after (isSessionAvailable 100 "m1_2025-03-01__10:00" None)
                          (Sample.up [Sample.booked]))
     = [] ++ [CallConnect]
  /\ sessions (store_after (isSessionAvailable 100 "m1_2025-03-01__10:00" None)
                           (Sample.up [Sample.booked]))
     = [Sample.booked].
Proof.
  apply (invalid_slot_rejected_without_query 100 "m1_2025-03-01__10:00" None
           (Sample.up [Sample.booked])).
  - exists 2%nat. split; [lia | right; reflexivity].
  - exists tt. reflexivity.
Defined.

(** Whatever the connection does, an invalid descriptor never leads to a
    query on the collection, and the answer is never [available: true]. *)
Lemma invalid_slot_never_queries now slotInfo userId w :
  invalid_slot slotInfo ->
  journal (store_after (isSessionAvailable now slotInfo userId) w)
  = journal w ++ [CallConnect]
  /\ exists r, result_of (isSessionAvailable now slotInfo userId) w = Returned r
               /\ available r = false.
Proof.
  intros Hinv. apply rejected_invalid in Hinv.
  unfold result_of, store_after, isSessionAvailable, try_catch.
  rewrite isSessionAvailable_try_run. cbv zeta. rewrite Hinv.
  destruct (scheduled w); (split; [reflexivity |]); eexists; split; reflexivity.
Qed.

Example invalid_slot_while_disconnected :
  result_of (isSessionAvailable 100 "" None) (Sample.down [])
  = Returned (Unavailable "Error checking availability").
Proof. reflexivity. Qed.

(** C10.  [isSessionAvailable] leaves the session collection as it found
    it, and every database call it makes is a read: the connection and at
    most one [find]; no [deleteMany], so no expired hold is removed. *)
Theorem isSessionAvailable_read_only :
  forall (now : Date) (slotInfo : string) (userId : option string) (w : Store),
    sessions (store_after (isSessionAvailable now slotInfo userId) w) = sessions w
    /\ exists calls,
         journal (store_after (isSessionAvailable now slotInfo userId) w)
         = journal w ++ calls
         /\ forallb read_only calls = true.
Proof.
  intros now slotInfo userId w.
  unfold store_after, isSessionAvailable, try_catch.
  rewrite isSessionAvailable_try_run. cbv zeta.
  destruct (scheduled w).
  { split; [reflexivity |]. exists [CallConnect]. split; reflexivity. }
  destruct (rejected slotInfo).
  { split; [reflexivity |]. exists [CallConnect]. split; reflexivity. }
  set (q := slotQuery now slotInfo).
  assert (J : journal (after (CallFind q) (after CallConnect w))
              = journal w ++ [CallConnect; CallFind q]).
  { simpl. now rewrite <- app_assoc. }
  destruct (scheduled (after CallConnect w)).
  { split; [reflexivity |]. exists [CallConnect; CallFind q]. split; [exact J | reflexivity]. }
  pose proof (verdict_store userId (filter (matches q) (sessions w))
                (after (CallFind q) (after CallConnect w))) as V.
  destruct (verdict userId (filter (matches q) (sessions w))
              (after (CallFind q) (after CallConnect w))) as [[r | err] w'];
    simpl in V; subst w'; (split; [reflexivity |]);
    exists [CallConnect; CallFind q]; (split; [exact J | reflexivity]).
Qed.

(** ** The body of cleanupExpiredReservations, unfolded along its calls *)

Lemma cleanupExpiredReservations_try_run now w :
  cleanupExpiredReservations_try now w
  = let w1 := after CallConnect w in
    let w2 := after (CallFind (expiredQuery now)) w1 in
    let found := filter (matches (expiredQuery now)) (sessions w) in
    match scheduled w with
    | Some e => (Thrown e, w1)
    | None =>
        match scheduled w1 with
        | Some e => (Thrown e, w2)
        | None =>
            if (0 <? length found)%nat then
              match scheduled w2 with
              | Some e => (Thrown e, after (CallDeleteMany (sweepQuery now w)) w2)
              | None =>
                  (Returned (CleanupDone
                               (length (filter (matches (sweepQuery now w)) (sessions w)))
                               (length found)),
                   mkStore (filter (fun s => negb (matches (sweepQuery now w) s))
                                   (sessions w))
                           (tl (faults w2))
                           (journal w2 ++ [CallDeleteMany (sweepQuery now w)]))
              end
            else (Returned (CleanupDone 0 0), w2)
        end
    end.
Proof.
  unfold cleanupExpiredReservations_try, bind, connectDB.
  rewrite call_run. cbv zeta.
  destruct (scheduled w); [reflexivity |].
  rewrite Session_find_run.
  destruct (scheduled (after CallConnect w)); [reflexivity |].
  change (sessions (after CallConnect w)) with (sessions w).
  fold (sweepQuery now w).
  destruct (0 <? length (filter (matches (expiredQuery now)) (sessions w)))%nat;
    [| reflexivity].
  rewrite Session_deleteMany_run.
  destruct (scheduled (after (CallFind (expiredQuery now)) (after CallConnect w)));
    reflexivity.
Qed.

(** ** Exceptions *)

Lemma try_catch_total {A} (body : M A) (handler : Error -> A) (w : Store) :
  exists a, result_of (try_catch body (fun e => ret (handler e))) w = Returned a.
Proof.
  unfold result_of, try_catch.
  destruct (body w) as [[a | e] w']; eexists; reflexivity.
Qed.

Lemma try_catch_thrown {A} (body : M A) (handler : Error -> A) (w : Store) (e : Error) :
  result_of body w = Thrown e ->
  result_of (try_catch body (fun e => ret (handler e))) w = Returned (handler e).
Proof.
  unfold result_of, try_catch.
  destruct (body w) as [[a | e'] w']; simpl; intros H; [discriminate |].
  now injection H as ->.
Qed.

(** C8.  Neither operation lets an exception through: each always returns
    a result object, and when a call inside its [try] block throws [e], the
    sweep returns [{ success: false, error: e }] and the availability check
    returns [{ available: false, reason: "Error checking availability" }]. *)
Theorem errors_become_results :
  forall (now : Date) (w : Store),
    ((exists r, result_of (cleanupExpiredReservations now) w = Returned r)
     /\ (forall e, result_of (cleanupExpiredReservations_try now) w = Thrown e ->
                   exists r, result_of (cleanupExpiredReservations now) w = Returned r
                             /\ r = CleanupFailed e /\ success r = false))
    /\ (forall (slotInfo : string) (userId : option string),
           (exists r, result_of (isSessionAvailable now slotInfo userId) w = Returned r)
           /\ (forall e, result_of (isSessionAvailable_try now slotInfo userId) w = Thrown e ->
                         exists r, result_of (isSessionAvailable now slotInfo userId) w
                                   = Returned r
                                   /\ available r = false
                                   /\ reason r = Some "Error checking availability")).
Proof.
  intros now w. split; [split | intros slotInfo userId; split].
  - apply (try_catch_total _ CleanupFailed).
  - intros e He. exists (CleanupFailed e). repeat split.
    exact (try_catch_thrown _ CleanupFailed w e He).
  - apply (try_catch_total _ (fun _ => Unavailable "Error checking availability")).
  - intros e He. exists (Unavailable "Error checking availability"). repeat split.
    exact (try_catch_thrown _ (fun _ => Unavailable "Error checking availability")
                            w e He).
Qed.

Example connection_refused_in_sweep :
  result_of (cleanupExpiredReservations 501) (Sample.down [Sample.booked])
  = Returned (CleanupFailed (MkError "ECONNREFUSED")).
Proof. reflexivity. Qed.

Example deletion_fails_in_sweep :
  cleanupExpiredReservations 501
    (mkStore [Sample.held "s2" "u2" "10:00" "11:00" 500]
             [None; None; Some (MkError "write failed")] [])
  = (Returned (CleanupFailed (MkError "write failed")),
     mkStore [Sample.held "s2" "u2" "10:00" "11:00" 500] []
             [CallConnect; CallFind (expiredQuery 501);
              CallDeleteMany (FieldIn P_id ["s2"])]).
Proof. reflexivity. Qed.

Example query_fails_in_check :
  result_of (isSessionAvailable 100 "m1_2025-03-01_10:00_11:00" None)
            (mkStore [Sample.booked] [None; Some (MkError "timeout")] [])
  = Returned (Unavailable "Error checking availability").
Proof. reflexivity. Qed.

(** ** The answers of isSessionAvailable *)

Lemma selected_iff m d s e now w x :
  In x (filter (matches (conflictQuery m d s e now)) (sessions w))
  <-> In x (sessions w) /\ concerns x m d s e
      /\ (status x = SessionStatus.CONFIRMED \/ live_hold now x).
Proof. rewrite filter_In, conflictQuery_matches. tauto. Qed.

Lemma reserved_selected_is_live m d s e now x :
  matches (conflictQuery m d s e now) x = true ->
  is_reserved x = true ->
  concerns x m d s e /\ live_hold now x.
Proof.
  intros Hm Hr. apply conflictQuery_matches in Hm. apply is_reserved_true in Hr.
  destruct Hm as [Hc [Hconf | Hlive]]; [| now split].
  exfalso. apply RESERVED_neq_CONFIRMED. congruence.
Qed.

Lemma no_confirmed_selected m d s e now w :
  (forall x, In x (sessions w) -> concerns x m d s e ->
             status x <> SessionStatus.CONFIRMED) ->
  existsb is_confirmed
          (filter (matches (conflictQuery m d s e now)) (sessions w)) = false.
Proof.
  intros H.
  destruct (existsb is_confirmed _) eqn:E; [| reflexivity].
  exfalso. apply existsb_exists in E. destruct E as (x & Hx & Hc).
  apply selected_iff in Hx. destruct Hx as (Hin & Hcon & _).
  apply is_confirmed_true in Hc. exact (H x Hin Hcon Hc).
Qed.

Lemma supplied_truthy userId u :
  supplied userId u -> truthy userId = true /\ str userId = u.
Proof.
  intros [-> Hu]. simpl. apply String.eqb_neq in Hu. now rewrite Hu.
Qed.

Lemma truthy_supplied userId :
  truthy userId = true -> supplied userId (str userId).
Proof.
  intros H. apply truthy_true in H. destruct H as (v & -> & Hv). now split.
Qed.

(** Every answer is one of the six object literals of the source. *)
Lemma isSessionAvailable_answers now slotInfo userId w r :
  result_of (isSessionAvailable now slotInfo userId) w = Returned r ->
  r = Unavailable error_msg \/ r = Unavailable invalid_msg
  \/ r = Available \/ r = Unavailable booked_msg
  \/ (exists x, r = AvailableForUser (reservationExpires x))
  \/ (exists x, r = UnavailableReserved held_msg (reservationExpires x)).
Proof.
  unfold result_of, isSessionAvailable, try_catch.
  rewrite isSessionAvailable_try_run. cbv zeta.
  destruct (scheduled w); [intros [= <-]; auto |].
  destruct (rejected slotInfo); [intros [= <-]; auto |].
  destruct (scheduled (after CallConnect w)); [intros [= <-]; auto |].
  rewrite verdict_run.
  destruct (existsb is_confirmed _); [intros [= <-]; auto 6 |].
  destruct (if truthy userId then _ else None) as [own |];
    [intros [= <-]; right; right; right; right; left; now exists own |].
  destruct (find is_reserved _) as [first |]; intros [= <-]; auto.
  do 5 right. now exists first.
Qed.

(** C7.  An answer with [available: false] carries one of the four reason
    texts of the source.  And when the cause is a live hold of another
    user (the descriptor is well formed, no call throws, no confirmed session
    concerns the slot, some live hold does, and no such hold is the caller's
    own), the answer is [{ available: false, reason, expiresAt }] where
    [expiresAt] is the expiry, after [now], of the first such hold in the
    collection. *)
Theorem unavailable_carries_reason_and_expiry :
  forall (now : Date) (slotInfo : string) (userId : option string) (w : Store),
    (forall r, result_of (isSessionAvailable now slotInfo userId) w = Returned r ->
               available r = false ->
               exists msg, reason r = Some msg
                           /\ In msg [invalid_msg; booked_msg; held_msg; error_msg])
    /\ (forall m d s e,
           slot_of slotInfo m d s e ->
           returns (isSessionAvailable_try now slotInfo userId) w ->
           (forall x, In x (sessions w) -> concerns x m d s e ->
                      status x <> SessionStatus.CONFIRMED) ->
           (exists x, In x (sessions w) /\ concerns x m d s e /\ live_hold now x) ->
           (forall x u, In x (sessions w) -> concerns x m d s e -> live_hold now x ->
                        supplied userId u -> menteeId x <> u) ->
           exists first t,
             find (fun x => matches (conflictQuery m d s e now) x && is_reserved x)
                  (sessions w) = Some first
             /\ concerns first m d s e /\ live_hold now first
             /\ reservationExpires first = Some t /\ now < t
             /\ result_of (isSessionAvailable now slotInfo userId) w
                = Returned (UnavailableReserved "This time slot is temporarily reserved"
                                                (Some t))).
Proof.
  intros now slotInfo userId w. split.
  - intros r Hr Hav. apply isSessionAvailable_answers in Hr.
    destruct Hr as [-> | [-> | [-> | [-> | [[x ->] | [x ->]]]]]];
      try discriminate Hav; eexists; (split; [reflexivity |]); simpl; auto.
  - intros m d s e Hslot Hret Hnoconf (x & Hx & Hcx & Hlx) Hother.
    rewrite (isSessionAvailable_answer _ _ _ _ _ _ _ _ Hslot Hret).
    rewrite verdict_run. cbn [fst].
    rewrite (no_confirmed_selected _ _ _ _ _ _ Hnoconf).
    set (q := conflictQuery m d s e now).
    assert (Hown : (if truthy userId
                    then find (fun y => is_reserved y && held_by (str userId) y)
                              (filter (matches q) (sessions w))
                    else None) = None).
    { destruct (truthy userId) eqn:T; [| reflexivity].
      destruct (find _ _) as [own |] eqn:F; [| reflexivity].
      exfalso. apply find_some in F. destruct F as [Hin Ho].
      apply filter_In in Hin. destruct Hin as [Hin Hm].
      apply andb_true_iff in Ho. destruct Ho as [Hr Hu].
      destruct (reserved_selected_is_live _ _ _ _ _ _ Hm Hr) as [Hc Hl].
      apply String.eqb_eq in Hu.
      exact (Hother own (str userId) Hin Hc Hl (truthy_supplied _ T) Hu). }
    rewrite Hown, find_filter.
    destruct (find_exists (fun y => matches q y && is_reserved y) (sessions w))
      as [first Hfirst].
    { exists x. split; [exact Hx |]. apply andb_true_iff. split.
      - apply conflictQuery_matches. split; [exact Hcx | now right].
      - apply is_reserved_true. apply Hlx. }
    rewrite Hfirst.
    pose proof (find_some _ _ Hfirst) as [Hin Hf].
    apply andb_true_iff in Hf. destruct Hf as [Hm Hr].
    destruct (reserved_selected_is_live _ _ _ _ _ _ Hm Hr) as [Hc Hl].
    pose proof Hl as (_ & t & Ht & Hlt).
    exists first, t.
    split; [reflexivity |]. split; [exact Hc |]. split; [exact Hl |].
    split; [exact Ht |]. split; [exact Hlt |]. now rewrite Ht.
Qed.

Lemma unavailable_carries_reason_and_expiry_witness :
  exists first t,
    find (fun x => matches (conflictQuery "m1" "2025-03-01" "10:00" "11:00" 100) x
                   && is_reserved x)
         [Sample.held "s2" "u2" "10:30" "11:30" 500] = Some first
    /\ concerns first "m1" "2025-03-01" "10:00" "11:00" /\ live_hold 100 first
    /\ reservationExpires first = Some t /\ 100 < t
    /\ result_of (isSessionAvailable 100 "m1_2025-03-01_10:00_11:00" (Some "u9"))
                 (Sample.up [Sample.held "s2" "u2" "10:30" "11:30" 500])
       = Returned (UnavailableReserved "This time slot is temporarily reserved"
                                       (Some t)).
Proof.
  apply (proj2 (unavailable_carries_reason_and_expiry
                  100 "m1_2025-03-01_10:00_11:00" (Some "u9")
                  (Sample.up [Sample.held "s2" "u2" "10:30" "11:30" 500]))).
  - repeat split; discriminate.
  - eexists. reflexivity.
  - intros x [<- | []] _. discriminate.
  - exists (Sample.held "s2" "u2" "10:30" "11:30" 500).
    split; [now left |]. split; [repeat split |].
    split; [reflexivity |]. exists 500. split; [reflexivity | lia].
  - intros x u [<- | []] _ _ [[= <-] _]. discriminate.
Defined.




(** ** The sweep *)

Lemma expiredQuery_matches now x :
  matches (expiredQuery now) x = is_expired_hold now x.
Proof.
  unfold expiredQuery, is_expired_hold. simpl.
  rewrite andb_true_r, andb_comm.
  destruct (reservationExpires x); reflexivity.
Qed.

Lemma NoDup_map_injective {A B} (f : A -> B) (l : list A) (x y : A) :
  NoDup (map f l) -> In x l -> In y l -> f x = f y -> x = y.
Proof.
  induction l as [| a l IH]; simpl; [intros _ [] |].
  intros Hnd Hx Hy E. inversion Hnd as [| ? ? Hnotin Hnd']; subst.
  destruct Hx as [<- | Hx], Hy as [<- | Hy]; auto.
  - exfalso. apply Hnotin. rewrite E. now apply in_map.
  - exfalso. apply Hnotin. rewrite <- E. now apply in_map.
Qed.

Lemma mem_In v vs : mem v vs = true <-> In v vs.
Proof.
  unfold mem. rewrite existsb_exists. split.
  - intros (y & Hy & E). apply String.eqb_eq in E. now subst.
  - intros H. exists v. split; [exact H | apply String.eqb_refl].
Qed.

(** Identifiers are unique, so the deletion by identifier removes the
    records found and no other. *)
Lemma sweepQuery_matches now w x :
  NoDup (map _id (sessions w)) ->
  In x (sessions w) ->
  matches (sweepQuery now w) x = is_expired_hold now x.
Proof.
  intros Hnd Hx. unfold sweepQuery. cbn [matches field].
  rewrite <- expiredQuery_matches.
  destruct (matches (expiredQuery now) x) eqn:E.
  - apply mem_In. apply in_map. apply filter_In. now split.
  - destruct (mem _ _) eqn:Hmem; [| reflexivity].
    exfalso. apply mem_In in Hmem. apply in_map_iff in Hmem.
    destruct Hmem as (y & Hid & Hy). apply filter_In in Hy. destruct Hy as [Hy Hey].
    assert (y = x) by (eapply NoDup_map_injective; eauto). subst y. congruence.
Qed.

Lemma filter_keep_all {A} (f : A -> bool) (l : list A) :
  filter f l = [] -> filter (fun x => negb (f x)) l = l.
Proof.
  induction l as [| a l IH]; simpl; [reflexivity |].
  destruct (f a); [discriminate |]. simpl. intros H. now rewrite IH.
Qed.

Lemma length_zero_nil {A} (l : list A) : (0 <? length l)%nat = false -> l = [].
Proof. destruct l; [reflexivity | discriminate]. Qed.

(** C5.  In a run without exception on a collection with unique
    identifiers, the sweep removes exactly the records whose status is
    reserved and whose expiry is strictly before [now]: the collection that
    remains is the old one without them, in the same order and unchanged,
    and [deletedCount] is their number. *)
Theorem cleanup_deletes_exactly_expired_holds :
  forall (now : Date) (w : Store),
    NoDup (map _id (sessions w)) ->
    returns (cleanupExpiredReservations_try now) w ->
    let w' := store_after (cleanupExpiredReservations now) w in
    let n := length (filter (is_expired_hold now) (sessions w)) in
    sessions w' = filter (fun x => negb (is_expired_hold now x)) (sessions w)
    /\ (forall x, In x (sessions w) ->
                  (~ In x (sessions w')
                   <-> status x = SessionStatus.RESERVED
                       /\ exists t, reservationExpires x = Some t /\ t < now))
    /\ result_of (cleanupExpiredReservations now) w = Returned (CleanupDone n n).
Proof.
  intros now w Hnd [a Ha] w' n.
  assert (Hrun : sessions w' = filter (fun x => negb (is_expired_hold now x)) (sessions w)
                 /\ result_of (cleanupExpiredReservations now) w
                    = Returned (CleanupDone n n)).
  { subst w' n.
    unfold result_of, store_after, cleanupExpiredReservations, try_catch in *.
    rewrite cleanupExpiredReservations_try_run in *. cbv zeta in *.
    destruct (scheduled w); [discriminate |].
    destruct (scheduled (after CallConnect w)); [discriminate |].
    rewrite (filter_ext _ _ (expiredQuery_matches now)) in *.
    destruct (0 <? length (filter (is_expired_hold now) (sessions w)))%nat eqn:L.
    - destruct (scheduled (after (CallFind (expiredQuery now)) (after CallConnect w)));
        [discriminate |].
      cbn [fst snd sessions]. split.
      + apply filter_ext_in. intros x Hx. now rewrite sweepQuery_matches.
      + do 2 f_equal. f_equal. apply filter_ext_in. intros x Hx.
        now apply sweepQuery_matches.
    - apply length_zero_nil in L. cbn [fst snd]. rewrite L. simpl. split.
      + symmetry. now apply filter_keep_all.
      + reflexivity. }
  destruct Hrun as [Hs Hr]. split; [exact Hs |]. split; [| exact Hr].
  intros x Hx. rewrite Hs, filter_In, negb_true_iff.
  unfold is_expired_hold. split.
  - intros Hnot.
    destruct (String.eqb (status x) SessionStatus.RESERVED) eqn:S;
      [| exfalso; apply Hnot; now split].
    apply String.eqb_eq in S. split; [exact S |].
    destruct (reservationExpires x) as [t |];
      [| exfalso; apply Hnot; now split].
    exists t. split; [reflexivity |].
    destruct (t <? now) eqn:T; [now apply Z.ltb_lt |].
    exfalso. apply Hnot. now split.
  - intros (S & t & Ht & Hlt) [_ H].
    apply String.eqb_eq in S. apply Z.ltb_lt in Hlt.
    rewrite S, Ht, Hlt in H. discriminate.
Qed.

Lemma cleanup_deletes_exactly_expired_holds_witness :
  let w := Sample.up [Sample.booked; Sample.held "s2" "u2" "10:00" "11:00" 500;
                      Sample.held "s3" "u3" "11:00" "12:00" 900] in
  let w' := store_after (cleanupExpiredReservations 501) w in
  let n := length (filter (is_expired_hold 501) (sessions w)) in
  sessions w' = filter (fun x => negb (is_expired_hold 501 x)) (sessions w)
  /\ (forall x, In x (sessions w) ->
                (~ In x (sessions w')
                 <-> status x = SessionStatus.RESERVED
                     /\ exists t, reservationExpires x = Some t /\ t < 501))
  /\ result_of (cleanupExpiredReservations 501) w = Returned (CleanupDone n n).
Proof.
  intros w.
  apply (cleanup_deletes_exactly_expired_holds 501 w).
  - repeat constructor; simpl; intuition discriminate.
  - eexists. reflexivity.
Defined.

Example sweep_keeps_the_rest :
  sessions (store_after (cleanupExpiredReservations 501)
              (Sample.up [Sample.booked; Sample.held "s2" "u2" "10:00" "11:00" 500;
                          Sample.held "s3" "u3" "11:00" "12:00" 900]))
  = [Sample.booked; Sample.held "s3" "u3" "11:00" "12:00" 900].
Proof. reflexivity. Qed.

(** C2, as amended.  For a slot that starts before it ends and a collection
    in which the sessions of the requested mentor and date start before they
    end (as strings): when every session of that mentor and date whose time
    range has an instant in common with the requested slot is a hold whose
    expiry is not after [now], the answer of a run without exception is
    [{ available: true }]. *)
Theorem lapsed_holds_do_not_block_ranges :
  forall (now : Date) (slotInfo : string) (userId : option string) (w : Store)
         (m d s e : string),
    slot_of slotInfo m d s e ->
    returns (isSessionAvailable_try now slotInfo userId) w ->
    Time.lt s e ->
    (forall x, In x (sessions w) -> mentorId x = m -> date x = d ->
               Time.lt (startTime x) (endTime x)) ->
    (forall x, In x (sessions w) -> mentorId x = m -> date x = d ->
               ranges_overlap (startTime x) (endTime x) s e -> lapsed_hold now x) ->
    result_of (isSessionAvailable now slotInfo userId) w = Returned Available.
Proof.
  intros now slotInfo userId w m d s e Hslot Hret Hse Hwf Hall.
  apply (nothing_selected_available _ _ _ _ _ _ _ _ Hslot Hret).
  intros x Hx. apply lapsed_not_selected. intros (Hm & Hd & Ho).
  apply (Hall x Hx Hm Hd). apply overlap_test_sound; auto.
Qed.

Lemma lapsed_holds_do_not_block_ranges_witness :
  result_of (isSessionAvailable 500 "m1_2025-03-01_10:30_11:30" (Some "u9"))
            (Sample.up [Sample.booked; Sample.held "s2" "u2" "10:30" "11:30" 500])
  = Returned Available.
Proof.
  apply (lapsed_holds_do_not_block_ranges
           500 "m1_2025-03-01_10:30_11:30" (Some "u9")
           (Sample.up [Sample.booked; Sample.held "s2" "u2" "10:30" "11:30" 500])
           "m1" "2025-03-01" "10:30" "11:30").
  - repeat split; discriminate.
  - exists Available. reflexivity.
  - reflexivity.
  - intros x [<- | [<- | []]] _ _; reflexivity.
  - intros x [<- | [<- | []]] _ _ Hov.
    + apply TimeFacts.ranges_overlap_iff in Hov.
      destruct Hov as (_ & _ & _ & Hov). discriminate Hov.
    + split; [reflexivity |]. exists 500. split; [reflexivity | lia].
Defined.

(** C2, as stated, fails: for the slot that starts at 10:00 and ends at
    09:00 no session has an instant in common with the slot, so every one
    that has is an expired hold; the query still selects the confirmed
    session from 09:30 to 10:30 and the answer is that the slot is booked. *)
Lemma lapsed_holds_inverted_slot :
  let w := Sample.up [Sample.booked] in
  slot_of "m1_2025-03-01_10:00_09:00" "m1" "2025-03-01" "10:00" "09:00"
  /\ returns (isSessionAvailable_try 100 "m1_2025-03-01_10:00_09:00" None) w
  /\ (forall x, In x (sessions w) -> mentorId x = "m1" -> date x = "2025-03-01" ->
                ranges_overlap (startTime x) (endTime x) "10:00" "09:00" ->
                lapsed_hold 100 x)
  /\ result_of (isSessionAvailable 100 "m1_2025-03-01_10:00_09:00" None) w
     = Returned (Unavailable "This time slot is already booked")
  /\ result_of (isSessionAvailable 100 "m1_2025-03-01_10:00_09:00" None) w
     <> Returned Available.
Proof.
  cbv zeta.
  split; [repeat split; discriminate |].
  split; [eexists; reflexivity |].
  split.
  - intros x _ _ _ Hov. exfalso.
    apply TimeFacts.ranges_overlap_iff in Hov.
    destruct Hov as (_ & Hov & _). discriminate Hov.
  - split; [reflexivity | discriminate].
Qed.

(** A session that ends when it starts is selected too, by the third
    alternative of the test, although it has no instant of its own. *)
Example lapsed_holds_empty_session :
  result_of (isSessionAvailable 100 "m1_2025-03-01_10:00_11:00" None)
            (Sample.up [mkSession "s5" "u1" "m1" "2025-03-01" "10:00" "10:00"
                                  SessionStatus.CONFIRMED None])
  = Returned (Unavailable "This time slot is already booked").
Proof. reflexivity. Qed.

(** ** The invariant of the data model under the two operations

    Neither operation adds or changes a record, so neither can make two
    sessions overlap that did not before; and as time passes, fewer holds are
    live. *)

Lemma no_double_booking_incl now (l l' : list Session) :
  incl l' l -> no_double_booking now l -> no_double_booking now l'.
Proof.
  intros Hincl H a b Ha Hb. apply H; now apply Hincl.
Qed.

Lemma no_double_booking_later now now' (l : list Session) :
  now <= now' -> no_double_booking now l -> no_double_booking now' l.
Proof.
  intros Hle H a b Ha Hb Hid Hm Hd Hmust. apply (H a b Ha Hb Hid Hm Hd).
  destruct Hmust as [Hc | [Hc | [(Sa & ta & Ea & La) (Sb & tb & Eb & Lb)]]].
  - now left.
  - right. now left.
  - right. right. split; (split; [assumption |]);
      [exists ta | exists tb]; (split; [assumption | lia]).
Qed.

Lemma cleanup_sessions_incl now w :
  incl (sessions (store_after (cleanupExpiredReservations now) w)) (sessions w).
Proof.
  unfold store_after, cleanupExpiredReservations, try_catch.
  rewrite cleanupExpiredReservations_try_run. cbv zeta.
  destruct (scheduled w); [apply incl_refl |].
  destruct (scheduled (after CallConnect w)); [apply incl_refl |].
  destruct (0 <? length _)%nat; [| apply incl_refl].
  destruct (scheduled (after (CallFind (expiredQuery now)) (after CallConnect w)));
    [apply incl_refl |].
  cbn [snd sessions]. apply incl_filter.
Qed.

Lemma cleanup_keeps_no_double_booking now t w :
  no_double_booking t (sessions w) ->
  no_double_booking t (sessions (store_after (cleanupExpiredReservations now) w)).
Proof. apply no_double_booking_incl, cleanup_sessions_incl. Qed.

(** * Further properties of the two operations *)

(** ** The decision as a value *)

Lemma verdict_decision userId l w :
  verdict userId l w = (Returned (decision userId l), w).
Proof.
  rewrite verdict_run. unfold decision.
  destruct (existsb is_confirmed l); [reflexivity |].
  destruct (if truthy userId then _ else None); [reflexivity |].
  destruct (find is_reserved l); reflexivity.
Qed.

Lemma returns_try_iff now slotInfo userId w :
  returns (isSessionAvailable_try now slotInfo userId) w
  <-> scheduled w = None
      /\ (rejected slotInfo = true \/ scheduled (after CallConnect w) = None).
Proof.
  unfold returns, result_of. rewrite isSessionAvailable_try_run. cbv zeta.
  destruct (scheduled w).
  { split; [intros [a H]; discriminate | intros [H _]; discriminate]. }
  destruct (rejected slotInfo).
  { split; [auto | intros _; eexists; reflexivity]. }
  destruct (scheduled (after CallConnect w)).
  { split; [intros [a H]; discriminate | intros [_ [H | H]]; discriminate]. }
  rewrite verdict_decision. split; [auto | intros _; eexists; reflexivity].
Qed.

(** Every answer is the error text, the invalid-descriptor text, or the
    decision on what the query selects. *)
Lemma answer_inversion now slotInfo userId w r :
  result_of (isSessionAvailable now slotInfo userId) w = Returned r ->
  r = Unavailable error_msg \/ r = Unavailable invalid_msg
  \/ (rejected slotInfo = false
      /\ r = decision userId
                      (filter (matches (slotQuery now slotInfo)) (sessions w))).
Proof.
  unfold result_of, isSessionAvailable, try_catch.
  rewrite isSessionAvailable_try_run. cbv zeta.
  destruct (scheduled w); [intros [= <-]; auto |].
  destruct (rejected slotInfo); [intros [= <-]; auto |].
  destruct (scheduled (after CallConnect w)); [intros [= <-]; auto |].
  rewrite verdict_decision. intros [= <-]. auto.
Qed.

Lemma answer_decision now slotInfo userId w m d s e :
  slot_of slotInfo m d s e ->
  returns (isSessionAvailable_try now slotInfo userId) w ->
  result_of (isSessionAvailable now slotInfo userId) w
  = Returned (decision userId
                       (filter (matches (conflictQuery m d s e now)) (sessions w))).
Proof.
  intros Hslot Hret.
  rewrite (isSessionAvailable_answer _ _ _ _ _ _ _ _ Hslot Hret).
  now rewrite verdict_decision.
Qed.

Lemma accepted_slot_of slotInfo :
  rejected slotInfo = false ->
  slot_of slotInfo (str (component slotInfo 0)) (str (component slotInfo 1))
          (str (component slotInfo 2)) (str (component slotInfo 3)).
Proof.
  unfold rejected. rewrite !orb_false_iff, !negb_false_iff, !truthy_true.
  intros [[[(m & Em & Hm) (d & Ed & Hd)] (s & Es & Hs)] (e & Ee & He)].
  unfold slot_of. fold (component slotInfo 0) (component slotInfo 1)
                       (component slotInfo 2) (component slotInfo 3).
  rewrite Em, Ed, Es, Ee. simpl. repeat split; assumption.
Qed.

(** What the decision says about the records it is taken on, when each of
    them is confirmed or reserved. *)
Section Decision.

Variable userId : option string.
Variable l : list Session.
Hypothesis selected :
  forall x, In x l -> is_confirmed x = true \/ is_reserved x = true.

Lemma decision_available : decision userId l = Available <-> l = [].
Proof.
  split.
  - unfold decision.
    destruct (existsb is_confirmed l) eqn:C; [discriminate |].
    destruct (if truthy userId then _ else None); [discriminate |].
    destruct (find is_reserved l) eqn:R; [discriminate |]. intros _.
    destruct l as [| x l']; [reflexivity |]. exfalso.
    destruct (selected x (or_introl eq_refl)) as [H | H].
    + assert (existsb is_confirmed (x :: l') = true)
        by (apply existsb_exists; exists x; split; [now left | exact H]).
      congruence.
    + pose proof (find_none _ _ R x (or_introl eq_refl)). congruence.
  - intros ->. unfold decision. simpl. destruct (truthy userId); reflexivity.
Qed.

Lemma decision_booked :
  decision userId l = Unavailable booked_msg
  <-> exists x, In x l /\ is_confirmed x = true.
Proof.
  rewrite <- existsb_exists. unfold decision.
  destruct (existsb is_confirmed l); [split; reflexivity |].
  destruct (if truthy userId then _ else None);
    [split; discriminate |].
  destruct (find is_reserved l); split; discriminate.
Qed.

Lemma decision_for_user dd :
  decision userId l = AvailableForUser dd ->
  existsb is_confirmed l = false
  /\ truthy userId = true
  /\ exists own, In own l /\ is_reserved own = true
                 /\ menteeId own = str userId /\ reservationExpires own = dd.
Proof.
  unfold decision.
  destruct (existsb is_confirmed l); [discriminate |].
  destruct (truthy userId).
  - destruct (find _ l) as [own |] eqn:F.
    + intros [= <-]. apply find_some in F. destruct F as [Hin Ho].
      apply andb_true_iff in Ho. destruct Ho as [Hr Hu].
      apply String.eqb_eq in Hu. split; [reflexivity |]. split; [reflexivity |].
      now exists own.
    + destruct (find is_reserved l); discriminate.
  - destruct (find is_reserved l); discriminate.
Qed.

Lemma decision_held msg dd :
  decision userId l = UnavailableReserved msg dd ->
  msg = held_msg
  /\ existsb is_confirmed l = false
  /\ (truthy userId = true ->
      forall x, In x l -> is_reserved x = true -> menteeId x <> str userId)
  /\ exists first, In first l /\ is_reserved first = true
                   /\ reservationExpires first = dd.
Proof.
  unfold decision.
  destruct (existsb is_confirmed l); [discriminate |].
  destruct (if truthy userId then _ else None) eqn:O; [discriminate |].
  destruct (find is_reserved l) as [first |] eqn:F; [| discriminate].
  intros [= <- <-]. split; [reflexivity |]. split; [reflexivity |]. split.
  - intros T x Hx Hr Hu. rewrite T in O.
    pose proof (find_none _ _ O x Hx) as Hn. cbv beta in Hn.
    rewrite Hr in Hn. simpl in Hn. apply String.eqb_neq in Hn. contradiction.
  - apply find_some in F. destruct F as [Hin Hr]. now exists first.
Qed.

End Decision.

Lemma selected_status m d s e now w x :
  In x (filter (matches (conflictQuery m d s e now)) (sessions w)) ->
  is_confirmed x = true \/ is_reserved x = true.
Proof.
  intros H. apply selected_iff in H. destruct H as (_ & _ & [H | [H _]]).
  - left. now apply is_confirmed_true.
  - right. now apply is_reserved_true.
Qed.

(** ** The four answers, read backwards *)

(** X1.  For a well-formed descriptor and a run without exception, the
    answer is the plain [{ available: true }] exactly when no session that
    concerns the slot is confirmed or a live hold. *)
Theorem plain_available_iff_nothing_live :
  forall (now : Date) (slotInfo : string) (userId : option string) (w : Store)
         (m d s e : string),
    slot_of slotInfo m d s e ->
    returns (isSessionAvailable_try now slotInfo userId) w ->
    (result_of (isSessionAvailable now slotInfo userId) w = Returned Available
     <-> forall x, In x (sessions w) -> concerns x m d s e ->
                   status x <> SessionStatus.CONFIRMED /\ ~ live_hold now x).
Proof.
  intros now slotInfo userId w m d s e Hslot Hret.
  rewrite (answer_decision _ _ _ _ _ _ _ _ Hslot Hret).
  split.
  - intros [= H].
    apply (decision_available _ _ (selected_status m d s e now w)) in H.
    intros x Hx Hc.
    assert (Hnot : ~ In x (filter (matches (conflictQuery m d s e now)) (sessions w)))
      by (rewrite H; intros []).
    rewrite selected_iff in Hnot. split; intros Hbad; apply Hnot; auto.
  - intros H. f_equal.
    apply (decision_available _ _ (selected_status m d s e now w)).
    apply filter_nil_iff. intros x Hx.
    destruct (matches (conflictQuery m d s e now) x) eqn:Hm; [| reflexivity].
    exfalso. apply conflictQuery_matches in Hm. destruct Hm as [Hc Hl].
    destruct (H x Hx Hc) as [H1 H2]. destruct Hl; contradiction.
Qed.

Lemma plain_available_iff_nothing_live_witness :
  result_of (isSessionAvailable 100 "m1_2025-03-01_11:00_12:00" None)
            (Sample.up [Sample.booked]) = Returned Available
  <-> forall x, In x [Sample.booked] ->
                concerns x "m1" "2025-03-01" "11:00" "12:00" ->
                status x <> SessionStatus.CONFIRMED /\ ~ live_hold 100 x.
Proof.
  apply (plain_available_iff_nothing_live 100 "m1_2025-03-01_11:00_12:00" None
           (Sample.up [Sample.booked]) "m1" "2025-03-01" "11:00" "12:00").
  - repeat split; discriminate.
  - eexists. reflexivity.
Defined.

(** X2.  For a well-formed descriptor and a run without exception, the
    answer is "This time slot is already booked" exactly when some confirmed
    session concerns the slot, whoever asks and whatever holds there are. *)
Theorem booked_iff_confirmed_session :
  forall (now : Date) (slotInfo : string) (userId : option string) (w : Store)
         (m d s e : string),
    slot_of slotInfo m d s e ->
    returns (isSessionAvailable_try now slotInfo userId) w ->
    (result_of (isSessionAvailable now slotInfo userId) w
     = Returned (Unavailable "This time slot is already booked")
     <-> exists x, In x (sessions w) /\ concerns x m d s e
                   /\ status x = SessionStatus.CONFIRMED).
Proof.
  intros now slotInfo userId w m d s e Hslot Hret.
  rewrite (answer_decision _ _ _ _ _ _ _ _ Hslot Hret).
  split.
  - intros [= H]. apply decision_booked in H. destruct H as (x & Hx & Hc).
    apply selected_iff in Hx. destruct Hx as (Hin & Hcon & _).
    exists x. repeat split; try assumption; try apply Hcon.
    now apply is_confirmed_true.
  - intros (x & Hx & Hcon & Hst). f_equal. apply decision_booked.
    exists x. split; [| now apply is_confirmed_true].
    apply selected_iff. auto.
Qed.

Lemma booked_iff_confirmed_session_witness :
  result_of (isSessionAvailable 100 "m1_2025-03-01_10:00_11:00" (Some "u1"))
            (Sample.up [Sample.booked])
  = Returned (Unavailable "This time slot is already booked")
  <-> exists x, In x [Sample.booked]
                /\ concerns x "m1" "2025-03-01" "10:00" "11:00"
                /\ status x = SessionStatus.CONFIRMED.
Proof.
  apply (booked_iff_confirmed_session 100 "m1_2025-03-01_10:00_11:00" (Some "u1")
           (Sample.up [Sample.booked]) "m1" "2025-03-01" "10:00" "11:00").
  - repeat split; discriminate.
  - eexists. reflexivity.
Defined.

(** X3.  In every run, an answer with [reservedForCurrentUser: true] means
    that the descriptor is well formed, the caller passed a non-empty user
    id, a live hold of that user concerns the slot and gives the reported
    expiry, which is after [now], and no confirmed session concerns the
    slot. *)
Theorem reserved_for_user_means_own_live_hold :
  forall (now : Date) (slotInfo : string) (userId : option string) (w : Store)
         (dd : option Date),
    result_of (isSessionAvailable now slotInfo userId) w
    = Returned (AvailableForUser dd) ->
    exists m d s e u own t,
      slot_of slotInfo m d s e /\ supplied userId u
      /\ In own (sessions w) /\ concerns own m d s e /\ live_hold now own
      /\ menteeId own = u /\ reservationExpires own = Some t
      /\ dd = Some t /\ now < t
      /\ (forall x, In x (sessions w) -> concerns x m d s e ->
                    status x <> SessionStatus.CONFIRMED).
Proof.
  intros now slotInfo userId w dd H.
  apply answer_inversion in H.
  destruct H as [H | [H | [Hacc H]]]; try discriminate H.
  pose proof (accepted_slot_of _ Hacc) as Hslot.
  unfold slotQuery in H. symmetry in H.
  apply decision_for_user in H. destruct H as (Hnc & T & own & Hin & Hr & Hu & He).
  apply filter_In in Hin. destruct Hin as [Hin Hm].
  destruct (reserved_selected_is_live _ _ _ _ _ _ Hm Hr) as [Hc Hl].
  pose proof Hl as (_ & t & Ht & Hlt).
  exists (str (component slotInfo 0)), (str (component slotInfo 1)),
         (str (component slotInfo 2)), (str (component slotInfo 3)),
         (str userId), own, t.
  split; [exact Hslot |]. split; [now apply truthy_supplied |].
  split; [exact Hin |]. split; [exact Hc |]. split; [exact Hl |].
  split; [exact Hu |]. split; [exact Ht |]. split; [congruence |].
  split; [exact Hlt |].
  intros x Hx Hcx Hst.
  assert (E : existsb is_confirmed
                (filter (matches (conflictQuery (str (component slotInfo 0))
                                                (str (component slotInfo 1))
                                                (str (component slotInfo 2))
                                                (str (component slotInfo 3)) now))
                        (sessions w)) = true).
  { apply existsb_exists. exists x. split; [| now apply is_confirmed_true].
    apply selected_iff. auto. }
  congruence.
Qed.

Lemma reserved_for_user_means_own_live_hold_witness :
  exists m d s e u own t,
    slot_of "m1_2025-03-01_10:00_11:00" m d s e /\ supplied (Some "u9") u
    /\ In own [Sample.held "s3" "u9" "10:30" "11:30" 500]
    /\ concerns own m d s e /\ live_hold 100 own
    /\ menteeId own = u /\ reservationExpires own = Some t
    /\ Some 500 = Some t /\ 100 < t
    /\ (forall x, In x [Sample.held "s3" "u9" "10:30" "11:30" 500] ->
                  concerns x m d s e -> status x <> SessionStatus.CONFIRMED).
Proof.
  apply (reserved_for_user_means_own_live_hold
           100 "m1_2025-03-01_10:00_11:00" (Some "u9")
           (Sample.up [Sample.held "s3" "u9" "10:30" "11:30" 500]) (Some 500)).
  reflexivity.
Defined.

(** X4.  In every run, an answer that carries [expiresAt] has the reason
    "This time slot is temporarily reserved" and means that the descriptor is
    well formed, no confirmed session concerns the slot, no live hold that
    concerns it is the caller's own, and the reported instant is the expiry,
    after [now], of a live hold that concerns the slot. *)
Theorem temporarily_reserved_means_foreign_live_hold :
  forall (now : Date) (slotInfo : string) (userId : option string) (w : Store)
         (msg : string) (dd : option Date),
    result_of (isSessionAvailable now slotInfo userId) w
    = Returned (UnavailableReserved msg dd) ->
    msg = "This time slot is temporarily reserved"
    /\ exists m d s e first t,
         slot_of slotInfo m d s e
         /\ In first (sessions w) /\ concerns first m d s e /\ live_hold now first
         /\ reservationExpires first = Some t /\ dd = Some t /\ now < t
         /\ (forall x, In x (sessions w) -> concerns x m d s e ->
                       status x <> SessionStatus.CONFIRMED)
         /\ (forall x u, In x (sessions w) -> concerns x m d s e ->
                         live_hold now x -> supplied userId u -> menteeId x <> u).
Proof.
  intros now slotInfo userId w msg dd H.
  apply answer_inversion in H.
  destruct H as [H | [H | [Hacc H]]]; try discriminate H.
  pose proof (accepted_slot_of _ Hacc) as Hslot.
  unfold slotQuery in H. symmetry in H.
  set (m := str (component slotInfo 0)) in *.
  set (d := str (component slotInfo 1)) in *.
  set (s := str (component slotInfo 2)) in *.
  set (e := str (component slotInfo 3)) in *.
  apply decision_held in H.
  destruct H as (-> & Hnc & Hother & first & Hin & Hr & He).
  split; [reflexivity |].
  apply filter_In in Hin. destruct Hin as [Hin Hm].
  destruct (reserved_selected_is_live _ _ _ _ _ _ Hm Hr) as [Hc Hl].
  pose proof Hl as (_ & t & Ht & Hlt).
  exists m, d, s, e, first, t.
  split; [exact Hslot |]. split; [exact Hin |]. split; [exact Hc |].
  split; [exact Hl |]. split; [exact Ht |]. split; [congruence |].
  split; [exact Hlt |]. split.
  - intros x Hx Hcx Hst.
    assert (E : existsb is_confirmed
                  (filter (matches (conflictQuery m d s e now)) (sessions w)) = true).
    { apply existsb_exists. exists x. split; [| now apply is_confirmed_true].
      apply selected_iff. auto. }
    congruence.
  - intros x u Hx Hcx Hlx Hsup.
    destruct (supplied_truthy _ _ Hsup) as [T Hs]. rewrite <- Hs.
    apply (Hother T).
    + apply selected_iff. auto.
    + apply is_reserved_true. apply Hlx.
Qed.

Lemma temporarily_reserved_means_foreign_live_hold_witness :
  "This time slot is temporarily reserved" = "This time slot is temporarily reserved"
  /\ exists m d s e first t,
       slot_of "m1_2025-03-01_10:00_11:00" m d s e
       /\ In first [Sample.held "s2" "u2" "10:00" "11:00" 500]
       /\ concerns first m d s e /\ live_hold 100 first
       /\ reservationExpires first = Some t /\ Some 500 = Some t /\ 100 < t
       /\ (forall x, In x [Sample.held "s2" "u2" "10:00" "11:00" 500] ->
                     concerns x m d s e -> status x <> SessionStatus.CONFIRMED)
       /\ (forall x u, In x [Sample.held "s2" "u2" "10:00" "11:00" 500] ->
                       concerns x m d s e -> live_hold 100 x ->
                       supplied (Some "u9") u -> menteeId x <> u).
Proof.
  apply (temporarily_reserved_means_foreign_live_hold
           100 "m1_2025-03-01_10:00_11:00" (Some "u9")
           (Sample.up [Sample.held "s2" "u2" "10:00" "11:00" 500])
           "This time slot is temporarily reserved" (Some 500)).
  reflexivity.
Defined.

(** ** Time, other bookings, and the order of the collection *)

Lemma answer_when_returns now slotInfo userId w :
  returns (isSessionAvailable_try now slotInfo userId) w ->
  result_of (isSessionAvailable now slotInfo userId) w
  = Returned (if rejected slotInfo then Unavailable invalid_msg
              else decision userId
                            (filter (matches (slotQuery now slotInfo)) (sessions w))).
Proof.
  intros Hret. apply returns_try_iff in Hret. destruct Hret as [H1 H2].
  unfold result_of, isSessionAvailable, try_catch.
  rewrite isSessionAvailable_try_run. cbv zeta. rewrite H1.
  destruct (rejected slotInfo); [reflexivity |].
  destruct H2 as [H2 | H2]; [discriminate |]. rewrite H2.
  now rewrite verdict_decision.
Qed.

Lemma returns_any_instant now now' slotInfo userId userId' w :
  returns (isSessionAvailable_try now slotInfo userId) w ->
  returns (isSessionAvailable_try now' slotInfo userId') w.
Proof. rewrite !returns_try_iff. auto. Qed.

Lemma live_hold_earlier now now' x :
  now <= now' -> live_hold now' x -> live_hold now x.
Proof.
  intros Hle (S & t & E & L). split; [exact S |]. exists t. split; [exact E | lia].
Qed.

(** X5.  On an unchanged collection a free slot stays free: when the answer
    at [now] is the plain [{ available: true }], so is the answer at every
    later instant, for every caller. *)
Theorem free_slot_stays_free :
  forall (now now' : Date) (slotInfo : string) (userId userId' : option string)
         (w : Store) (m d s e : string),
    slot_of slotInfo m d s e ->
    returns (isSessionAvailable_try now slotInfo userId) w ->
    now <= now' ->
    result_of (isSessionAvailable now slotInfo userId) w = Returned Available ->
    result_of (isSessionAvailable now' slotInfo userId') w = Returned Available.
Proof.
  intros now now' slotInfo userId userId' w m d s e Hslot Hret Hle.
  pose proof (returns_any_instant now now' slotInfo userId userId' w Hret) as Hret'.
  rewrite (answer_decision _ _ _ _ _ _ _ _ Hslot Hret).
  rewrite (answer_decision _ _ _ _ _ _ _ _ Hslot Hret').
  intros [= H]. f_equal.
  apply (decision_available _ _ (selected_status m d s e now w)) in H.
  apply (decision_available _ _ (selected_status m d s e now' w)).
  rewrite filter_nil_iff in *. intros x Hx. specialize (H x Hx).
  destruct (matches (conflictQuery m d s e now') x) eqn:Hm; [| reflexivity].
  apply conflictQuery_matches in Hm. destruct Hm as [Hc Hl].
  rewrite <- H. symmetry. apply conflictQuery_matches. split; [exact Hc |].
  destruct Hl as [Hl | Hl]; [now left | right].
  eapply live_hold_earlier; eassumption.
Qed.

Lemma free_slot_stays_free_witness :
  result_of (isSessionAvailable 900 "m1_2025-03-01_10:00_11:00" None)
            (Sample.up [Sample.held "s2" "u2" "10:00" "11:00" 500])
  = Returned Available.
Proof.
  apply (free_slot_stays_free 500 900 "m1_2025-03-01_10:00_11:00" (Some "u9") None
           (Sample.up [Sample.held "s2" "u2" "10:00" "11:00" 500])
           "m1" "2025-03-01" "10:00" "11:00").
  - repeat split; discriminate.
  - eexists. reflexivity.
  - lia.
  - reflexivity.
Defined.

Lemma filter_filter_implied {A} (f g : A -> bool) (l : list A) :
  (forall x, f x = true -> g x = true) ->
  filter f (filter g l) = filter f l.
Proof.
  intros H. induction l as [| x l IH]; simpl; [reflexivity |].
  destruct (g x) eqn:G; simpl.
  - now rewrite IH.
  - destruct (f x) eqn:F; [| exact IH].
    apply H in F. congruence.
Qed.

Lemma conflict_of_mentor_day m d s e now x :
  matches (conflictQuery m d s e now) x = true -> of_mentor_day m d x = true.
Proof.
  intros H. apply conflictQuery_matches in H. destruct H as [(Hm & Hd & _) _].
  unfold of_mentor_day. apply andb_true_iff. split; now apply String.eqb_eq.
Qed.

(** X6.  Sessions of other mentors or other days never matter: two
    collections with the same sessions of the requested mentor on the
    requested day, in the same order, get the same answer. *)
Theorem other_mentors_and_days_do_not_matter :
  forall (now : Date) (slotInfo : string) (userId : option string)
         (w1 w2 : Store) (m d s e : string),
    slot_of slotInfo m d s e ->
    returns (isSessionAvailable_try now slotInfo userId) w1 ->
    returns (isSessionAvailable_try now slotInfo userId) w2 ->
    filter (of_mentor_day m d) (sessions w1) = filter (of_mentor_day m d) (sessions w2) ->
    result_of (isSessionAvailable now slotInfo userId) w1
    = result_of (isSessionAvailable now slotInfo userId) w2.
Proof.
  intros now slotInfo userId w1 w2 m d s e Hslot H1 H2 Hsame.
  rewrite (answer_decision _ _ _ _ _ _ _ _ Hslot H1).
  rewrite (answer_decision _ _ _ _ _ _ _ _ Hslot H2).
  rewrite <- (filter_filter_implied _ (of_mentor_day m d) (sessions w1)
                (conflict_of_mentor_day m d s e now)).
  rewrite <- (filter_filter_implied _ (of_mentor_day m d) (sessions w2)
                (conflict_of_mentor_day m d s e now)).
  now rewrite Hsame.
Qed.

Lemma other_mentors_and_days_do_not_matter_witness :
  result_of (isSessionAvailable 100 "m1_2025-03-01_10:00_11:00" None)
            (Sample.up [Sample.booked;
                        mkSession "s7" "u4" "m2" "2025-03-01" "10:00" "11:00"
                                  SessionStatus.CONFIRMED None])
  = result_of (isSessionAvailable 100 "m1_2025-03-01_10:00_11:00" None)
              (Sample.up [mkSession "s8" "u5" "m1" "2025-03-02" "10:00" "11:00"
                                    SessionStatus.CONFIRMED None;
                          Sample.booked]).
Proof.
  apply (other_mentors_and_days_do_not_matter
           100 "m1_2025-03-01_10:00_11:00" None _ _ "m1" "2025-03-01" "10:00" "11:00").
  - repeat split; discriminate.
  - eexists. reflexivity.
  - eexists. reflexivity.
  - reflexivity.
Defined.

Lemma existsb_Permutation {A} (f : A -> bool) (l1 l2 : list A) :
  Permutation l1 l2 -> existsb f l1 = existsb f l2.
Proof.
  intros P.
  destruct (existsb f l1) eqn:E1, (existsb f l2) eqn:E2; try reflexivity; exfalso.
  - apply existsb_exists in E1. destruct E1 as (x & Hx & Hf).
    assert (existsb f l2 = true)
      by (apply existsb_exists; exists x; split;
          [now apply (Permutation_in _ P) | exact Hf]).
    congruence.
  - apply existsb_exists in E2. destruct E2 as (x & Hx & Hf).
    assert (existsb f l1 = true)
      by (apply existsb_exists; exists x; split;
          [now apply (Permutation_in _ (Permutation_sym P)) | exact Hf]).
    congruence.
Qed.

Lemma existsb_filter {A} (f g : A -> bool) (l : list A) :
  existsb f (filter g l) = existsb (fun x => g x && f x) l.
Proof.
  induction l as [| x l IH]; simpl; [reflexivity |].
  destruct (g x); simpl; [now rewrite IH | exact IH].
Qed.

(** The flag and the reason text depend on the records only through which
    kinds of record there are. *)
Lemma decision_flags_same userId (l1 l2 : list Session) :
  (forall f, existsb f l1 = existsb f l2) ->
  available (decision userId l1) = available (decision userId l2)
  /\ reason (decision userId l1) = reason (decision userId l2).
Proof.
  intros H. unfold decision.
  pose proof (H is_confirmed) as Hc.
  pose proof (H is_reserved) as Hr.
  pose proof (H (fun x => is_reserved x && held_by (str userId) x)) as Ho.
  rewrite !(existsb_find is_reserved) in Hr.
  rewrite !(existsb_find (fun x => is_reserved x && held_by (str userId) x)) in Ho.
  rewrite <- Hc.
  destruct (existsb is_confirmed l1); [split; reflexivity |].
  destruct (truthy userId).
  - destruct (find (fun x => is_reserved x && held_by (str userId) x) l1),
             (find (fun x => is_reserved x && held_by (str userId) x) l2);
      try discriminate Ho; [split; reflexivity |].
    destruct (find is_reserved l1), (find is_reserved l2);
      try discriminate Hr; split; reflexivity.
  - destruct (find is_reserved l1), (find is_reserved l2);
      try discriminate Hr; split; reflexivity.
Qed.

(** X7.  Whether the slot is available, and with which reason text, does
    not depend on the order of the collection: two collections with the same
    records in any order get answers with the same [available] flag and the
    same [reason] (the reported expiry may differ). *)
Theorem availability_independent_of_order :
  forall (now : Date) (slotInfo : string) (userId : option string)
         (w1 w2 : Store) (r1 r2 : Availability),
    Permutation (sessions w1) (sessions w2) ->
    returns (isSessionAvailable_try now slotInfo userId) w1 ->
    returns (isSessionAvailable_try now slotInfo userId) w2 ->
    result_of (isSessionAvailable now slotInfo userId) w1 = Returned r1 ->
    result_of (isSessionAvailable now slotInfo userId) w2 = Returned r2 ->
    available r1 = available r2 /\ reason r1 = reason r2.
Proof.
  intros now slotInfo userId w1 w2 r1 r2 P H1 H2.
  rewrite (answer_when_returns _ _ _ _ H1), (answer_when_returns _ _ _ _ H2).
  intros [= <-] [= <-].
  destruct (rejected slotInfo); [split; reflexivity |].
  apply decision_flags_same. intros f.
  rewrite !existsb_filter. now apply existsb_Permutation.
Qed.

Lemma availability_independent_of_order_witness :
  available (UnavailableReserved held_msg (Some 400))
  = available (UnavailableReserved held_msg (Some 500))
  /\ reason (UnavailableReserved held_msg (Some 400))
     = reason (UnavailableReserved held_msg (Some 500)).
Proof.
  apply (availability_independent_of_order
           100 "m1_2025-03-01_10:00_11:00" None
           (Sample.up [Sample.held "s2" "u2" "10:00" "10:30" 400;
                       Sample.held "s3" "u9" "10:30" "11:30" 500])
           (Sample.up [Sample.held "s3" "u9" "10:30" "11:30" 500;
                       Sample.held "s2" "u2" "10:00" "10:30" 400])).
  - apply perm_swap.
  - eexists. reflexivity.
  - eexists. reflexivity.
  - reflexivity.
  - reflexivity.
Defined.

(** ** More on the sweep *)

Lemma sweep_leaves now w :
  NoDup (map _id (sessions w)) ->
  returns (cleanupExpiredReservations_try now) w ->
  sessions (store_after (cleanupExpiredReservations now) w)
  = filter (fun x => negb (is_expired_hold now x)) (sessions w).
Proof.
  intros Hnd [a Ha].
  unfold result_of, store_after, cleanupExpiredReservations, try_catch in *.
  rewrite cleanupExpiredReservations_try_run in *. cbv zeta in *.
  destruct (scheduled w); [discriminate |].
  destruct (scheduled (after CallConnect w)); [discriminate |].
  rewrite (filter_ext _ _ (expiredQuery_matches now)) in *.
  destruct (0 <? length (filter (is_expired_hold now) (sessions w)))%nat eqn:L.
  - destruct (scheduled (after (CallFind (expiredQuery now)) (after CallConnect w)));
      [discriminate |].
    cbn [snd sessions]. apply filter_ext_in. intros x Hx.
    now rewrite sweepQuery_matches.
  - apply length_zero_nil in L. cbn [snd]. simpl.
    symmetry. now apply filter_keep_all.
Qed.

Lemma sweep_nothing_expired now w :
  filter (is_expired_hold now) (sessions w) = [] ->
  returns (cleanupExpiredReservations_try now) w ->
  cleanupExpiredReservations now w
  = (Returned (CleanupDone 0 0),
     after (CallFind (expiredQuery now)) (after CallConnect w)).
Proof.
  intros Hnone [a Ha].
  unfold result_of, cleanupExpiredReservations, try_catch in *.
  rewrite cleanupExpiredReservations_try_run in *. cbv zeta in *.
  destruct (scheduled w); [discriminate |].
  destruct (scheduled (after CallConnect w)); [discriminate |].
  rewrite (filter_ext _ _ (expiredQuery_matches now)) in *.
  rewrite Hnone. reflexivity.
Qed.

Lemma expired_earlier now now' x :
  now' <= now -> is_expired_hold now' x = true -> is_expired_hold now x = true.
Proof.
  unfold is_expired_hold. intros Hle H.
  apply andb_true_iff in H. destruct H as [Hs Ht]. rewrite Hs. simpl.
  destruct (reservationExpires x) as [t |]; [| discriminate].
  apply Z.ltb_lt in Ht. apply Z.ltb_lt. lia.
Qed.

(** X8.  Sweeping twice is sweeping once: after a sweep at [now] that ran
    without exception on a collection with unique identifiers, a sweep at any
    instant up to [now] finds nothing, issues no deletion, returns
    [{ success: true, deletedCount: 0, totalProcessed: 0 }] and leaves the
    collection as it is. *)
Theorem second_sweep_finds_nothing :
  forall (now now' : Date) (w : Store),
    NoDup (map _id (sessions w)) ->
    returns (cleanupExpiredReservations_try now) w ->
    now' <= now ->
    let w1 := store_after (cleanupExpiredReservations now) w in
    returns (cleanupExpiredReservations_try now') w1 ->
    result_of (cleanupExpiredReservations now') w1 = Returned (CleanupDone 0 0)
    /\ sessions (store_after (cleanupExpiredReservations now') w1) = sessions w1
    /\ journal (store_after (cleanupExpiredReservations now') w1)
       = journal w1 ++ [CallConnect; CallFind (expiredQuery now')].
Proof.
  intros now now' w Hnd Hret Hle w1 Hret1.
  assert (Hnone : filter (is_expired_hold now') (sessions w1) = []).
  { subst w1. rewrite (sweep_leaves _ _ Hnd Hret).
    apply filter_nil_iff. intros x Hx. apply filter_In in Hx.
    destruct Hx as [_ Hx]. apply negb_true_iff in Hx.
    destruct (is_expired_hold now' x) eqn:E; [| reflexivity].
    apply (expired_earlier now now' x Hle) in E. congruence. }
  unfold result_of, store_after.
  rewrite (sweep_nothing_expired _ _ Hnone Hret1). cbn [fst snd].
  split; [reflexivity |]. split; [reflexivity |].
  simpl. now rewrite <- app_assoc.
Qed.

Lemma second_sweep_finds_nothing_witness :
  let w := Sample.up [Sample.booked; Sample.held "s2" "u2" "10:00" "11:00" 500] in
  let w1 := store_after (cleanupExpiredReservations 501) w in
  result_of (cleanupExpiredReservations 501) w1 = Returned (CleanupDone 0 0)
  /\ sessions (store_after (cleanupExpiredReservations 501) w1) = sessions w1
  /\ journal (store_after (cleanupExpiredReservations 501) w1)
     = journal w1 ++ [CallConnect; CallFind (expiredQuery 501)].
Proof.
  intros w.
  apply (second_sweep_finds_nothing 501 501 w).
  - repeat constructor; simpl; intuition discriminate.
  - eexists. reflexivity.
  - lia.
  - eexists. reflexivity.
Defined.

Lemma selected_not_expired now t slotInfo x :
  t <= now ->
  matches (slotQuery now slotInfo) x = true ->
  negb (is_expired_hold t x) = true.
Proof.
  intros Hle Hm. unfold slotQuery in Hm. apply conflictQuery_matches in Hm.
  destruct Hm as [_ Hl]. apply negb_true_iff. unfold is_expired_hold.
  destruct Hl as [Hc | (Hs & t' & Ht & Hlt)].
  - assert (E : String.eqb (status x) SessionStatus.RESERVED = false)
      by (rewrite Hc; reflexivity).
    now rewrite E.
  - rewrite Ht. assert (E : (t' <? t) = false) by (apply Z.ltb_ge; lia).
    rewrite E. apply andb_false_r.
Qed.

(** X9.  The sweep never changes an answer: after a sweep at an instant up
    to [now] that ran without exception on a collection with unique
    identifiers, [isSessionAvailable] at [now] answers as it would have on
    the collection before the sweep. *)
Theorem sweep_does_not_change_answers :
  forall (t now : Date) (slotInfo : string) (userId : option string) (w : Store),
    NoDup (map _id (sessions w)) ->
    returns (cleanupExpiredReservations_try t) w ->
    t <= now ->
    let w' := store_after (cleanupExpiredReservations t) w in
    returns (isSessionAvailable_try now slotInfo userId) w ->
    returns (isSessionAvailable_try now slotInfo userId) w' ->
    result_of (isSessionAvailable now slotInfo userId) w'
    = result_of (isSessionAvailable now slotInfo userId) w.
Proof.
  intros t now slotInfo userId w Hnd Hsweep Hle w' Hret Hret'.
  rewrite (answer_when_returns _ _ _ _ Hret), (answer_when_returns _ _ _ _ Hret').
  subst w'. rewrite (sweep_leaves _ _ Hnd Hsweep).
  rewrite (filter_filter_implied _ _ (sessions w)
             (fun x => selected_not_expired now t slotInfo x Hle)).
  reflexivity.
Qed.

Lemma sweep_does_not_change_answers_witness :
  let w := Sample.up [Sample.held "s2" "u2" "10:00" "11:00" 500;
                      Sample.held "s3" "u9" "10:30" "11:30" 900] in
  result_of (isSessionAvailable 600 "m1_2025-03-01_10:00_11:00" None)
            (store_after (cleanupExpiredReservations 550) w)
  = result_of (isSessionAvailable 600 "m1_2025-03-01_10:00_11:00" None) w.
Proof.
  intros w.
  apply (sweep_does_not_change_answers 550 600 "m1_2025-03-01_10:00_11:00" None w).
  - repeat constructor; simpl; intuition discriminate.
  - eexists. reflexivity.
  - lia.
  - eexists. reflexivity.
  - eexists. reflexivity.
Defined.

(** X10.  In every run the sweep calls the database in one of three ways:
    the connection alone; the connection and the query for expired holds;
    or these two and one deletion, which is by the identifiers of the expired
    holds found and is issued only when some were found.  In the first two
    cases the collection is left as it was. *)
Theorem sweep_deletes_only_what_it_found :
  forall (now : Date) (w : Store),
    let w' := store_after (cleanupExpiredReservations now) w in
    let found := filter (is_expired_hold now) (sessions w) in
    (journal w' = journal w ++ [CallConnect] /\ sessions w' = sessions w)
    \/ (journal w' = journal w ++ [CallConnect; CallFind (expiredQuery now)]
        /\ sessions w' = sessions w)
    \/ (journal w' = journal w ++ [CallConnect; CallFind (expiredQuery now);
                                   CallDeleteMany (FieldIn P_id (map _id found))]
        /\ found <> []).
Proof.
  intros now w. cbv zeta.
  unfold store_after, cleanupExpiredReservations, try_catch.
  rewrite cleanupExpiredReservations_try_run. cbv zeta.
  unfold sweepQuery. rewrite (filter_ext _ _ (expiredQuery_matches now)).
  destruct (scheduled w); [left; split; reflexivity |].
  destruct (scheduled (after CallConnect w)).
  { right; left. simpl. rewrite <- app_assoc. split; reflexivity. }
  destruct (filter (is_expired_hold now) (sessions w)) as [| x found] eqn:F.
  { right; left. simpl. rewrite <- app_assoc. split; reflexivity. }
  right; right.
  cbv beta iota delta [length Nat.ltb Nat.leb].
  destruct (scheduled (after (CallFind (expiredQuery now)) (after CallConnect w)));
    simpl; rewrite <- !app_assoc; (split; [reflexivity | discriminate]).
Qed.

(** ** The descriptor *)

Lemma split_nonempty sep s : split sep s <> [].
Proof.
  destruct s as [| c rest]; simpl; [discriminate |].
  destruct (Ascii.eqb c sep); [discriminate |].
  destruct (split sep rest); discriminate.
Qed.

Lemma split_app sep a b :
  split sep (a ++ String sep b) = split sep a ++ split sep b.
Proof.
  induction a as [| c a IH]; simpl.
  - now rewrite Ascii.eqb_refl.
  - destruct (Ascii.eqb c sep); [now rewrite IH |].
    rewrite IH. pose proof (split_nonempty sep a) as N.
    destruct (split sep a) as [| p ps]; [contradiction | reflexivity].
Qed.

Lemma split_free sep a : free_of sep a = true -> split sep a = [a].
Proof.
  induction a as [| c a IH]; simpl; [reflexivity |].
  intros H. apply andb_true_iff in H. destruct H as [Hc Ha].
  apply negb_true_iff in Hc. rewrite Hc, (IH Ha). reflexivity.
Qed.

Lemma split_descriptor m d s e :
  free_of "_" m = true -> free_of "_" d = true ->
  free_of "_" s = true -> free_of "_" e = true ->
  split "_" (descriptor m d s e) = [m; d; s; e].
Proof.
  intros Hm Hd Hs He. unfold descriptor.
  change ("_" ++ d ++ "_" ++ s ++ "_" ++ e)%string
    with (String "_" (d ++ String "_" (s ++ String "_" e))).
  rewrite !split_app, (split_free _ _ Hm), (split_free _ _ Hd),
    (split_free _ _ Hs), (split_free _ _ He).
  reflexivity.
Qed.

(** X11.  A descriptor written in the documented format from four
    components that contain no underscore is read back as these components:
    it is accepted with exactly them when none is empty, and it is invalid
    when one is. *)
Theorem descriptor_round_trip :
  forall m d s e : string,
    free_of "_" m = true -> free_of "_" d = true ->
    free_of "_" s = true -> free_of "_" e = true ->
    (slot_of (descriptor m d s e) m d s e
     <-> m <> "" /\ d <> "" /\ s <> "" /\ e <> "")
    /\ (invalid_slot (descriptor m d s e)
        <-> m = "" \/ d = "" \/ s = "" \/ e = "").
Proof.
  intros m d s e Hm Hd Hs He.
  pose proof (split_descriptor m d s e Hm Hd Hs He) as E.
  unfold slot_of, invalid_slot. rewrite E. cbv zeta. split.
  - split; [tauto |]. intros H. simpl. tauto.
  - split.
    + intros (i & Hi & H).
      destruct i as [| [| [| [| i]]]]; try lia; simpl in H;
        destruct H as [H | [= H]]; try discriminate H; auto.
    + intros [-> | [-> | [-> | ->]]];
        [exists 0%nat | exists 1%nat | exists 2%nat | exists 3%nat];
        (split; [lia | right; reflexivity]).
Qed.

Lemma descriptor_round_trip_witness :
  (slot_of (descriptor "m1" "2025-03-01" "10:00" "11:00")
           "m1" "2025-03-01" "10:00" "11:00"
   <-> "m1" <> "" /\ "2025-03-01" <> "" /\ "10:00" <> "" /\ "11:00" <> "")
  /\ (invalid_slot (descriptor "m1" "2025-03-01" "10:00" "11:00")
      <-> "m1" = "" \/ "2025-03-01" = "" \/ "10:00" = "" \/ "11:00" = "").
Proof.
  apply (descriptor_round_trip "m1" "2025-03-01" "10:00" "11:00"); reflexivity.
Defined.

Lemma component_with_suffix slotInfo extra i :
  (4 <= length (split "_" slotInfo))%nat -> (i < 4)%nat ->
  component (slotInfo ++ "_" ++ extra) i = component slotInfo i.
Proof.
  intros Hlen Hi. unfold component.
  change ("_" ++ extra)%string with (String "_" extra).
  rewrite split_app. apply nth_error_app1. lia.
Qed.

(** X12.  Only the first four components of the descriptor are read: when
    [slotInfo] has at least four, whatever follows a further underscore
    changes neither the answer nor the calls made. *)
Theorem extra_components_ignored :
  forall (now : Date) (slotInfo extra : string) (userId : option string)
         (w : Store),
    (4 <= length (split "_" slotInfo))%nat ->
    isSessionAvailable now (slotInfo ++ "_" ++ extra) userId w
    = isSessionAvailable now slotInfo userId w.
Proof.
  intros now slotInfo extra userId w Hlen.
  unfold isSessionAvailable, try_catch.
  rewrite !isSessionAvailable_try_run. cbv zeta.
  unfold rejected, slotQuery.
  rewrite !(component_with_suffix slotInfo extra) by (assumption || lia).
  reflexivity.
Qed.

Lemma extra_components_ignored_witness :
  isSessionAvailable 100 ("m1_2025-03-01_10:00_11:00" ++ "_" ++ "12:00") None
                     (Sample.up [Sample.booked])
  = isSessionAvailable 100 "m1_2025-03-01_10:00_11:00" None
                       (Sample.up [Sample.booked]).
Proof.
  apply (extra_components_ignored 100 "m1_2025-03-01_10:00_11:00" "12:00" None
           (Sample.up [Sample.booked])).
  simpl. lia.
Defined.

(** ** The session list *)

Lemma cards_of_group {A} (k : A -> string) (p : A -> SessionCard.Props) (l : list A) :
  flat_map UI.cards (map (fun a => UI.Card (k a) (p a)) l)
  = map (fun a => (k a, p a)) l.
Proof.
  induction l as [| a l IH]; simpl; [reflexivity | now rewrite IH].
Qed.

Lemma links_of_group {A} (k : A -> string) (p : A -> SessionCard.Props) (l : list A) :
  flat_map UI.links (map (fun a => UI.Card (k a) (p a)) l) = [].
Proof. induction l as [| a l IH]; simpl; [reflexivity | exact IH]. Qed.

(** X13.  The list shows every session exactly once and in order: the
    session cards of the rendering are as many as the sessions, the i-th is
    keyed by the i-th session's [id] and carries its [id], its mentor's name
    and, as [otherUserId], its [mentorId]; every card has [isMentor] false
    and [isUpcoming] as the list's type says.  An empty list shows no
    card. *)
Theorem session_list_shows_each_session_once :
  forall (sessions : list UI.Session) (header : string) (type : UI.ListType)
         (emptyStateAction : option UI.EmptyStateAction),
    let shown := UI.cards (UI.SessionList sessions header type emptyStateAction) in
    map fst shown = map UI.id sessions
    /\ Forall2 (fun session card =>
                  SessionCard.id card = UI.id session
                  /\ SessionCard.name card = UI.mentorName session
                  /\ SessionCard.otherUserId card = UI.mentorId session
                  /\ SessionCard.isMentor card = false
                  /\ SessionCard.isUpcoming card
                     = match type with UI.upcoming => true | UI.previous => false end)
               sessions (map snd shown).
Proof.
  intros sessions header type action shown. subst shown.
  unfold UI.SessionList.
  destruct sessions as [| s0 rest].
  { destruct action; split; (reflexivity || constructor). }
  set (l := s0 :: rest).
  change (0 <? length l)%nat with true. cbv iota.
  cbn [UI.cards flat_map app]. rewrite cards_of_group.
  match goal with
  | |- context [UI.cards (if ?b then ?x else UI.Nothing)] =>
      replace (UI.cards (if b then x else UI.Nothing))
        with (@nil (string * SessionCard.Props))
        by (destruct type; reflexivity)
  end.
  rewrite !app_nil_r, !map_map. cbn [fst snd]. clearbody l. split; [reflexivity |].
  induction l as [| a l IH]; constructor; [| exact IH].
  repeat split.
Qed.

(** X14.  The list offers at most one link: under a non-empty upcoming
    list the link to [/mentors], under a non-empty previous list none, and
    under an empty list the link of the empty-state action when one is given
    and none otherwise, whatever the type. *)
Theorem session_list_links :
  forall (sessions : list UI.Session) (header : string) (type : UI.ListType)
         (emptyStateAction : option UI.EmptyStateAction),
    UI.links (UI.SessionList sessions header type emptyStateAction)
    = match sessions with
      | [] => match emptyStateAction with
              | Some action => [UI.href action]
              | None => []
              end
      | _ :: _ => match type with
                  | UI.upcoming => ["/mentors"]
                  | UI.previous => []
                  end
      end.
Proof.
  intros sessions header type action. unfold UI.SessionList.
  destruct sessions as [| s0 rest].
  { destruct action; reflexivity. }
  set (l := s0 :: rest).
  change (0 <? length l)%nat with true. cbv iota.
  cbn [UI.links flat_map app String.eqb Ascii.eqb Bool.eqb].
  rewrite links_of_group. destruct type; reflexivity.
Qed.

(** ** Adjacent slots and callers without a hold *)

(** X15.  Back-to-back bookings do not conflict: for a session and a slot
    that both start before they end, the overlap test fails when the session
    ends at or before the start of the slot, and when it starts at or after
    the end of the slot. *)
Theorem adjacent_slots_do_not_conflict :
  forall (x : Session) (start_ end_ : string),
    Time.lt (startTime x) (endTime x) ->
    Time.lt start_ end_ ->
    Time.le (endTime x) start_ \/ Time.le end_ (startTime x) ->
    overlap_test x start_ end_ = false.
Proof.
  intros x a b Hx Hq Hadj.
  destruct (overlap_test x a b) eqn:E; [| reflexivity]. exfalso.
  apply (overlap_test_sound x a b Hx Hq) in E.
  apply TimeFacts.ranges_overlap_iff in E. destruct E as (_ & _ & H1 & H2).
  destruct Hadj as [H | H].
  - apply (TimeFacts.lt_irrefl a). eapply TimeFacts.lt_le_trans; eassumption.
  - apply (TimeFacts.lt_irrefl (startTime x)).
    eapply TimeFacts.lt_le_trans; eassumption.
Qed.

Lemma adjacent_slots_do_not_conflict_witness :
  overlap_test Sample.booked "10:30" "11:30" = false.
Proof.
  apply (adjacent_slots_do_not_conflict Sample.booked "10:30" "11:30").
  - reflexivity.
  - reflexivity.
  - left. reflexivity.
Defined.

Example empty_session_at_slot_start_conflicts :
  overlap_test (mkSession "s5" "u1" "m1" "2025-03-01" "10:00" "10:00"
                          SessionStatus.CONFIRMED None) "10:00" "11:00" = true.
Proof. reflexivity. Qed.

Lemma decision_with_user userId l :
  decision userId l = decision None l
  \/ exists dd, decision userId l = AvailableForUser dd.
Proof.
  unfold decision. destruct (existsb is_confirmed l); [now left |].
  destruct (truthy userId); [| now left].
  destruct (find _ l) as [own |]; [right; eexists; reflexivity | now left].
Qed.

(** X16.  Passing a user id changes the answer in one way only: in every
    run, with every fault schedule, the answer for [userId] is the answer for
    a caller without user id, or it is the answer with
    [reservedForCurrentUser: true]. *)
Theorem user_id_only_unlocks_own_hold :
  forall (now : Date) (slotInfo : string) (userId : option string) (w : Store),
    result_of (isSessionAvailable now slotInfo userId) w
    = result_of (isSessionAvailable now slotInfo None) w
    \/ exists dd, result_of (isSessionAvailable now slotInfo userId) w
                  = Returned (AvailableForUser dd).
Proof.
  intros now slotInfo userId w.
  unfold result_of, isSessionAvailable, try_catch.
  rewrite !isSessionAvailable_try_run. cbv zeta.
  destruct (scheduled w); [now left |].
  destruct (rejected slotInfo); [now left |].
  destruct (scheduled (after CallConnect w)); [now left |].
  rewrite !verdict_decision. cbn [fst].
  destruct (decision_with_user userId
              (filter (matches (slotQuery now slotInfo)) (sessions w)))
    as [E | [dd E]]; rewrite E; [now left | right; now exists dd].
Qed.
